(** * meetup-cloudflare: the Broadcaster Durable Object and the assertion verifier

    A shallow embedding of [server/src/durable-object.ts] (class
    [Broadcaster]) and of the route handlers of [server/src/index.ts]
    that call it, together with the properties the design document
    states about them and further ones read off the code.

    The Durable Object runs one handler at a time, to completion.  A
    handler is embedded as a computation over a [World]: the two private
    fields of the instance, the part of the hosting runtime the code talks
    to ([ctx.getWebSockets], [ctx.storage], the alarm, [Date.now]) and the
    list of effects performed so far.  Exceptions are results, so that the
    [try]/[catch] blocks of the source can be written as they are. *)

From stdpp Require Import gmap strings list fin_maps pretty.

Local Open Scope Z_scope.

(** ** Values exchanged with the runtime *)

(** [data: any] as it arrives from [request.json()]. *)
#[warnings="-register-all"]
Inductive json :=
| JNull
| JBool (b : bool)
| JNum (n : Z)
| JStr (s : string)
| JArr (xs : list json)
| JObj (fields : list (string * json)).

(** The two built-ins whose output format the code does not depend on. *)
Class Runtime := {
  JSON_stringify : json → string;
  toISOString : Z → string
}.

(** A [WebSocket] is an opaque handle. *)
Abbreviation WebSocket := nat.

(** What [console.log] and [console.error] are called with. *)
Inductive LogEntry :=
| LogLoadedStartTime (stored : string)
| LogInitializedStartTime (started : string)
| LogNewConnection (total : nat)
| LogErrorConnectionMessage
| LogClosed (code : Z) (remaining : nat)
| LogNoMoreConnections
| LogWebSocketError
| LogBroadcasting (event : string) (clients : nat)
| LogErrorSending
| LogErrorBroadcast
| LogScheduledAlarm (at_ : string)
| LogAlarmTriggered (idleMinutes totalMinutes : Z) (connectionCount : nat)
| LogMeetupEnded
| LogClosing (connections : nat)
| LogErrorClosing.

(** Everything a handler does to the outside, in the order it does it. *)
Inductive Effect :=
| Accepted (ws : WebSocket)
| Sent (ws : WebSocket) (message : string)
| SendThrew (ws : WebSocket) (message : string)
| Closed (ws : WebSocket) (code : Z) (reason : string)
| CloseThrew (ws : WebSocket)
| StoragePut (key : string) (value : Z)
| StorageDeleteAll
| AlarmSet (time : Z)
| Console (entry : LogEntry).

Inductive Exn := SendError | CloseError | JsonError.

(** ** The world a handler runs in *)

Record World := mkWorld {
  (* private fields of the Broadcaster instance *)
  lastActivity : Z;
  meetupStartTime : Z;
  (* this.ctx *)
  webSockets : list WebSocket;     (* ctx.getWebSockets() *)
  storage : gmap string Z;         (* ctx.storage, key-value part *)
  alarmAt : option Z;              (* ctx.storage, the single alarm *)
  (* the host *)
  clock : Z;                       (* Date.now() *)
  stale : gset WebSocket;          (* handles on which send/close throws *)
  nextSocket : WebSocket;          (* supply for new WebSocketPair() *)
  trace : list Effect
}.

Definition set_lastActivity (v : Z) (w : World) : World :=
  mkWorld v (meetupStartTime w) (webSockets w) (storage w) (alarmAt w)
          (clock w) (stale w) (nextSocket w) (trace w).
Definition set_meetupStartTime (v : Z) (w : World) : World :=
  mkWorld (lastActivity w) v (webSockets w) (storage w) (alarmAt w)
          (clock w) (stale w) (nextSocket w) (trace w).
Definition set_webSockets (v : list WebSocket) (w : World) : World :=
  mkWorld (lastActivity w) (meetupStartTime w) v (storage w) (alarmAt w)
          (clock w) (stale w) (nextSocket w) (trace w).
Definition set_storage (v : gmap string Z) (w : World) : World :=
  mkWorld (lastActivity w) (meetupStartTime w) (webSockets w) v (alarmAt w)
          (clock w) (stale w) (nextSocket w) (trace w).
Definition set_alarmAt (v : option Z) (w : World) : World :=
  mkWorld (lastActivity w) (meetupStartTime w) (webSockets w) (storage w) v
          (clock w) (stale w) (nextSocket w) (trace w).
Definition set_clock (v : Z) (w : World) : World :=
  mkWorld (lastActivity w) (meetupStartTime w) (webSockets w) (storage w)
          (alarmAt w) v (stale w) (nextSocket w) (trace w).
Definition set_nextSocket (v : WebSocket) (w : World) : World :=
  mkWorld (lastActivity w) (meetupStartTime w) (webSockets w) (storage w)
          (alarmAt w) (clock w) (stale w) v (trace w).
Definition emit (e : Effect) (w : World) : World :=
  mkWorld (lastActivity w) (meetupStartTime w) (webSockets w) (storage w)
          (alarmAt w) (clock w) (stale w) (nextSocket w) (trace w ++ [e]).

(** ** Computations that may throw *)

Inductive Res (A : Type) :=
| Ok (a : A)
| Throw (e : Exn).
Arguments Ok {A} a.
Arguments Throw {A} e.

Definition M (A : Type) : Type := World → Res A * World.

#[export] Instance M_ret : MRet M := λ A a w, (Ok a, w).
#[export] Instance M_bind : MBind M := λ A B f m w,
  match m w with
  | (Ok a, w') => f a w'
  | (Throw e, w') => (Throw e, w')
  end.

(** [try { body } catch (err) { handler }] *)
Definition try_catch {A} (body : M A) (handler : Exn → M A) : M A := λ w,
  match body w with
  | (Ok a, w') => (Ok a, w')
  | (Throw e, w') => handler e w'
  end.

(** [xs.forEach(f)] *)
Fixpoint forEach {A} (xs : list A) (f : A → M unit) : M unit :=
  match xs with
  | [] => mret ()
  | x :: rest => f x ;; forEach rest f
  end.

Definition modify (f : World → World) : M unit := λ w, (Ok (), f w).
Definition read {A} (f : World → A) : M A := λ w, (Ok (f w), w).

(** The world after a computation, and its result. *)
Definition exec {A} (m : M A) (w : World) : World := (m w).2.
Definition result {A} (m : M A) (w : World) : Res A := (m w).1.

(** ** The runtime's side of the API *)

Definition Date_now : M Z := read clock.
Definition console (e : LogEntry) : M unit := modify (emit (Console e)).

(** [ctx.acceptWebSocket(ws)]: the handle joins the live set. *)
Definition acceptWebSocket (ws : WebSocket) : M unit :=
  modify (λ w, emit (Accepted ws) (set_webSockets (webSockets w ++ [ws]) w)).
Definition getWebSockets : M (list WebSocket) := read webSockets.

(** [ws.send(message)]: throws on a stale handle, delivers otherwise. *)
Definition ws_send (ws : WebSocket) (message : string) : M unit := λ w,
  if decide (ws ∈ stale w)
  then (Throw SendError, emit (SendThrew ws message) w)
  else (Ok (), emit (Sent ws message) w).

(** [ws.close(code, reason)] *)
Definition ws_close (ws : WebSocket) (code : Z) (reason : string) : M unit := λ w,
  if decide (ws ∈ stale w)
  then (Throw CloseError, emit (CloseThrew ws) w)
  else (Ok (), emit (Closed ws code reason) w).

Definition storage_get (key : string) : M (option Z) :=
  read (λ w, storage w !! key).
Definition storage_put (key : string) (value : Z) : M unit :=
  modify (λ w, emit (StoragePut key value) (set_storage (<[key := value]> (storage w)) w)).
(** [deleteAll] empties the key-value storage; it leaves the alarm alone. *)
Definition storage_deleteAll : M unit :=
  modify (λ w, emit StorageDeleteAll (set_storage ∅ w)).
(** [setAlarm] overwrites the alarm: an object has at most one. *)
Definition storage_setAlarm (time : Z) : M unit :=
  modify (λ w, emit (AlarmSet time) (set_alarmAt (Some time) w)).

(** [new WebSocketPair()], as [[client, server]]. *)
Definition new_WebSocketPair : M (WebSocket * WebSocket) := λ w,
  (Ok (nextSocket w, S (nextSocket w)), set_nextSocket (S (S (nextSocket w))) w).

(** JavaScript truthiness of [storage.get<number>(key)]: [undefined] and
    [0] are falsy. *)
Definition truthy (stored : option Z) : bool :=
  match stored with
  | Some v => negb (v =? 0)
  | None => false
  end.

(** [Math.round(ms / 1000 / 60)] on an integer number of milliseconds. *)
Definition round_minutes (ms : Z) : Z := (ms + 30000) / 60000.

(** ** The Broadcaster *)

(** [Request] as far as [fetch] looks at it: the path of the URL, the
    method, the [Upgrade] header and what [request.json()] yields for
    [{ event, data }] ([None] when parsing the body throws). *)
Record Request := mkRequest {
  pathname : string;
  method : string;
  upgrade : option string;
  body : option (string * json)
}.

Record Response := mkResponse {
  responseBody : option string;
  status : Z;
  webSocket : option WebSocket
}.

Definition request_json (request : Request) : M (string * json) := λ w,
  match body request with
  | Some b => (Ok b, w)
  | None => (Throw JsonError, w)
  end.

Module Broadcaster.
Section Methods.
Context `{!Runtime}.

Definition constructor : M unit :=
  now ← Date_now; modify (set_lastActivity now);;
  now ← Date_now; modify (set_meetupStartTime now);;
  (* blockConcurrencyWhile *)
  stored ← storage_get "meetupStartTime";
  if truthy stored then
    modify (set_meetupStartTime (default 0 stored));;
    console (LogLoadedStartTime (toISOString (default 0 stored)))
  else
    started ← read meetupStartTime;
    storage_put "meetupStartTime" started;;
    console (LogInitializedStartTime (toISOString started)).

Definition scheduleAlarm : M unit :=
  now ← Date_now;
  let alarmTime := now + 30 * 60 * 1000 in
  storage_setAlarm alarmTime;;
  console (LogScheduledAlarm (toISOString alarmTime)).

Definition handleWebSocket (webSocket : WebSocket) : M unit :=
  acceptWebSocket webSocket;;
  now ← Date_now; modify (set_lastActivity now);;
  connections ← getWebSockets;
  let connectionCount := length connections in
  console (LogNewConnection connectionCount);;
  now ← Date_now;
  let message := JObj [("type", JStr "connected");
                       ("timestamp", JStr (toISOString now));
                       ("connectionCount", JNum (Z.of_nat connectionCount))] in
  try_catch (ws_send webSocket (JSON_stringify message))
            (λ err, console LogErrorConnectionMessage);;
  scheduleAlarm.

Definition webSocketMessage (ws : WebSocket) (message : string) : M unit :=
  now ← Date_now; modify (set_lastActivity now).

Definition webSocketClose (ws : WebSocket) (code : Z) (reason : string)
    (wasClean : bool) : M unit :=
  now ← Date_now; modify (set_lastActivity now);;
  connections ← getWebSockets;
  let connectionCount := length connections in
  console (LogClosed code connectionCount);;
  if decide (connectionCount = 0%nat) then
    console LogNoMoreConnections;;
    scheduleAlarm
  else mret ().

Definition webSocketError (ws : WebSocket) : M unit :=
  console LogWebSocketError.

Definition broadcast (event : string) (data : json) : M unit :=
  let message := JSON_stringify (JObj [("type", JStr event); ("data", data)]) in
  connections ← getWebSockets;
  console (LogBroadcasting event (length connections));;
  forEach connections (λ ws,
    try_catch (ws_send ws message) (λ err, console LogErrorSending)).

Definition fetch (request : Request) : M Response :=
  if decide (pathname request = "/ws") then
    if decide (upgrade request ≠ Some "websocket") then
      mret (mkResponse (Some "Expected WebSocket upgrade") 426 None)
    else
      '(client, server) ← new_WebSocketPair;
      handleWebSocket server;;
      mret (mkResponse None 101 (Some client))
  else if decide (pathname request = "/broadcast" ∧ method request = "POST") then
    try_catch
      ('(event, data) ← request_json request;
       broadcast event data;;
       mret (mkResponse (Some "OK") 200 None))
      (λ err,
       console LogErrorBroadcast;;
       mret (mkResponse (Some "Invalid request") 400 None))
  else mret (mkResponse (Some "Not found") 404 None).

Definition meetup_ended_data : json :=
  JObj [("reason", JStr "idle");
        ("message", JStr "Meetup ended due to inactivity")].

Definition alarm : M unit :=
  now ← Date_now;
  last ← read lastActivity;
  started ← read meetupStartTime;
  let idleTime := now - last in
  let totalTime := now - started in
  connections ← getWebSockets;
  let connectionCount := length connections in
  console (LogAlarmTriggered (round_minutes idleTime) (round_minutes totalTime)
                             connectionCount);;
  if decide (connectionCount = 0%nat ∧ idleTime > 2 * 60 * 60 * 1000) then
    console LogMeetupEnded;;
    broadcast "meetup-ended" meetup_ended_data;;
    storage_deleteAll
  else
    scheduleAlarm.

Definition closeAllConnections : M unit :=
  connections ← getWebSockets;
  console (LogClosing (length connections));;
  forEach connections (λ ws,
    try_catch (ws_close ws 1000 "Meetup ended") (λ err, console LogErrorClosing)).

End Methods.
End Broadcaster.

(** ** The host delivering events *)

(** One event is one handler run to completion.  While [webSocketClose]
    runs, [getWebSockets] still lists the handle that closed; the host
    drops it from the live set once the handler has returned.  An alarm
    that fires is no longer pending.  A restart loses the instance and
    constructs a new one; the storage, the alarm and the live set stay
    with the host. *)
Inductive Event :=
| Fetch (request : Request)
| SocketMessage (ws : WebSocket) (message : string)
| SocketClose (ws : WebSocket) (code : Z) (reason : string) (wasClean : bool)
| SocketError (ws : WebSocket)
| AlarmFires
| Restarted.

Definition drop_handle (ws : WebSocket) (w : World) : World :=
  set_webSockets (filter (λ x, x ≠ ws) (webSockets w)) w.

Definition dispatch `{!Runtime} (ev : Event) : M unit :=
  match ev with
  | Fetch request => Broadcaster.fetch request;; mret ()
  | SocketMessage ws message => Broadcaster.webSocketMessage ws message
  | SocketClose ws code reason wasClean =>
      Broadcaster.webSocketClose ws code reason wasClean;; modify (drop_handle ws)
  | SocketError ws => Broadcaster.webSocketError ws
  | AlarmFires => modify (set_alarmAt None);; Broadcaster.alarm
  | Restarted => Broadcaster.constructor
  end.

(** The event [ev] arrives when the clock shows [t]. *)
Definition deliver `{!Runtime} (w : World) (tev : Z * Event) : World :=
  exec (dispatch tev.2) (set_clock tev.1 w).

Definition run `{!Runtime} (evs : list (Z * Event)) (w : World) : World :=
  foldl deliver w evs.

(** A deployment that has never run: nothing stored, nobody connected. *)
Definition blank (broken : gset WebSocket) : World :=
  mkWorld 0 0 [] ∅ None 0 broken 0%nat [].

(** The request [notifyDO] of the Worker sends to the object. *)
Definition notifyDO_request (event : string) (data : json) : Request :=
  mkRequest "/broadcast" "POST" None (Some (event, data)).

(** The request the Worker forwards for [GET /api/ws] with an
    [Upgrade: websocket] header. *)
Definition upgrade_request : Request :=
  mkRequest "/ws" "GET" (Some "websocket") None.

(** ** Reading a trace *)

Definition emits (es : list Effect) (w : World) : World :=
  mkWorld (lastActivity w) (meetupStartTime w) (webSockets w) (storage w)
          (alarmAt w) (clock w) (stale w) (nextSocket w) (trace w ++ es).

(** Messages that reached a connection. *)
Definition deliveries (es : list Effect) : list (WebSocket * string) :=
  omap (λ e, match e with Sent ws m => Some (ws, m) | _ => None end) es.

(** Calls of [send], whether they returned or threw. *)
Definition attempts (es : list Effect) : list (WebSocket * string) :=
  omap (λ e, match e with
             | Sent ws m | SendThrew ws m => Some (ws, m)
             | _ => None
             end) es.

(** What one connection received. *)
Definition inbox (ws : WebSocket) (es : list Effect) : list string :=
  omap (λ e, match e with
             | Sent ws' m => if decide (ws' = ws) then Some m else None
             | _ => None
             end) es.

(** Effects other than logging. *)
Definition is_action (e : Effect) : bool :=
  match e with
  | Console _ => false
  | _ => true
  end.
Definition actions (es : list Effect) : list Effect :=
  filter (λ e, is_action e) es.

(** Calls of [close]. *)
Definition closings (es : list Effect) : list WebSocket :=
  omap (λ e, match e with
             | Closed ws _ _ | CloseThrew ws => Some ws
             | _ => None
             end) es.

(** The effects a computation adds to the trace when started in [w]. *)
Definition effects_of {A} (m : M A) (w : World) : list Effect :=
  drop (length (trace w)) (trace (exec m w)).

(** The pending alarm, if any, is due within one period of the clock. *)
Definition timely (w : World) : Prop :=
  ∀ a, alarmAt w = Some a → a ≤ clock w + 30 * 60 * 1000.

(** The constructor run again at each of the times [ts]. *)
Definition restarts `{!Runtime} (ts : list Z) (w : World) : World :=
  run ((λ t, (t, Restarted)) <$> ts) w.

(** The values written under [key]. *)
Definition writes (key : string) (es : list Effect) : list Z :=
  omap (λ e, match e with
             | StoragePut k v => if decide (k = key) then Some v else None
             | _ => None
             end) es.


(** The events of a schedule arrive in the order of their times. *)
Fixpoint in_order (from : Z) (evs : list (Z * Event)) : Prop :=
  match evs with
  | [] => True
  | (t, _) :: rest => from ≤ t ∧ in_order t rest
  end.

(** What [send] leaves in the trace for one handle inside the
    [try]/[catch] of [broadcast]. *)
Definition send_effects (broken : gset WebSocket) (message : string)
    (ws : WebSocket) : list Effect :=
  if decide (ws ∈ broken)
  then [SendThrew ws message; Console LogErrorSending]
  else [Sent ws message].

(** What [send] leaves in the trace inside [handleWebSocket]. *)
Definition connected_effects (w : World) (ws : WebSocket) (message : string)
    : list Effect :=
  if decide (ws ∈ stale w)
  then [SendThrew ws message; Console LogErrorConnectionMessage]
  else [Sent ws message].

Definition connected_message `{!Runtime} (now : Z) (connectionCount : nat)
    : string :=
  JSON_stringify (JObj [("type", JStr "connected");
                        ("timestamp", JStr (toISOString now));
                        ("connectionCount", JNum (Z.of_nat connectionCount))]).

(** The host fires the pending alarm at the time it is due. *)
Definition fire_due `{!Runtime} (w : World) : World :=
  match alarmAt w with
  | Some due => deliver w (due, AlarmFires)
  | None => w
  end.

(** What [close] leaves in the trace for one handle inside the
    [try]/[catch] of [closeAllConnections]. *)
Definition close_effects (broken : gset WebSocket) (ws : WebSocket)
    : list Effect :=
  if decide (ws ∈ broken)
  then [CloseThrew ws; Console LogErrorClosing]
  else [Closed ws 1000 "Meetup ended"].

(** The events that assign [lastActivity]: an accepted connection, a
    client message, a disconnect, and the construction of an instance. *)
Definition resets_idle_clock (ev : Event) : Prop :=
  match ev with
  | Fetch request => pathname request = "/ws" ∧ upgrade request = Some "websocket"
  | SocketMessage _ _ | SocketClose _ _ _ _ | Restarted => True
  | SocketError _ | AlarmFires => False
  end.

(** While somebody is connected an alarm is pending. *)
Definition watched (w : World) : Prop :=
  webSockets w ≠ [] → is_Some (alarmAt w).

(** An idle session: nobody connected, last activity at [t], storage
    [s], and the alarm due at [due]. *)
Definition idle_since (t due : Z) (s : gmap string Z) (w : World) : Prop :=
  webSockets w = [] ∧ lastActivity w = t ∧ storage w = s
  ∧ alarmAt w = Some due.

(** ** The identity verification pipeline *)

Module Verification.

(** Modelled from the spec: the error kinds of sections 4.1 and 7; the
    shared JWT package that defines them is not among the files of the
    server. *)
Inductive VerificationError :=
| MalformedToken
| Expired
| AudienceMismatch
| InvalidIdentifier
| InvalidSignature.

(** Modelled from the spec: [AssertionPayload] of section 3, with [iss],
    [data], [exp] and [aud] of the wire format. *)
Record AssertionPayload := mkPayload {
  issuer : string;
  issuedData : json;
  expiresAt : option Z;
  audience : option string
}.

(** Modelled from the spec: the policy of step 4 of [verify]. *)
Record VerificationPolicy := mkPolicy {
  requireAudience : bool;
  expectedAudience : string
}.

(** Modelled from the spec: the leaves of section 2, pure functions the
    pipeline composes: the base64url and base58 alphabets, the JSON
    reading of the claims ([None] when [iss] is absent or of the wrong
    shape), the two-byte multicodec tag of Ed25519 keys and the signature
    check. *)
Class Primitives := {
  base64url_decode : string → option (list Byte.byte);
  parse_claims : list Byte.byte → option AssertionPayload;
  base58_decode : string → option (list Byte.byte);
  ed25519_tag : list Byte.byte;
  ed25519_verify : list Byte.byte → string → list Byte.byte → bool
}.

(** Modelled from the spec: what the decoder hands on, the claims, the
    signing input as it stood in the token, and the signature bytes. *)
Record Decoded := mkDecoded {
  claims : AssertionPayload;
  signingInput : string;
  signatureBytes : list Byte.byte
}.

(** Modelled from the spec: the split of a token on [.], step 1. *)
Fixpoint split_on (sep : Ascii.ascii) (s : string) : list string :=
  match s with
  | EmptyString => [EmptyString]
  | String c rest =>
      if Ascii.eqb c sep then EmptyString :: split_on sep rest
      else match split_on sep rest with
           | [] => [String c EmptyString]
           | segment :: segments => String c segment :: segments
           end
  end.

(** Modelled from the spec: the literal prefix required of a DID,
    step 5. *)
Fixpoint strip_prefix (prefix s : string) : option string :=
  match prefix, s with
  | EmptyString, _ => Some s
  | String p prefix', String c s' =>
      if Ascii.eqb p c then strip_prefix prefix' s' else None
  | String _ _, EmptyString => None
  end.

(** Modelled from the spec: the multicodec tag required of the decoded
    bytes, step 5. *)
Fixpoint strip_tag (tag bytes : list Byte.byte) : option (list Byte.byte) :=
  match tag, bytes with
  | [], _ => Some bytes
  | t :: tag', b :: bytes' =>
      if Byte.eqb t b then strip_tag tag' bytes' else None
  | _ :: _, [] => None
  end.

Definition dot : Ascii.ascii := Ascii.ascii_of_nat 46.

Section Pipeline.
Context `{!Primitives}.

(** Modelled from the spec: the Assertion Decoder, steps 1 and 2 of
    [verify] in section 4.1; its source, the shared JWT package, is not
    among the files of the server. *)
Definition decode (token : string) : VerificationError + Decoded :=
  match split_on dot token with
  | [header; payload; signature] =>
      match base64url_decode header, base64url_decode payload,
            base64url_decode signature with
      | Some _, Some payloadBytes, Some sig =>
          match parse_claims payloadBytes with
          | Some c =>
              inr (mkDecoded c (header +:+ String dot EmptyString +:+ payload) sig)
          | None => inl MalformedToken
          end
      | _, _, _ => inl MalformedToken
      end
  | _ => inl MalformedToken
  end.

(** Modelled from the spec: the Key Resolver, step 5 of [verify] in
    section 4.1; its source is not among the files of the server. *)
Definition resolveKey (did : string) : option (list Byte.byte) :=
  encoded ← strip_prefix "did:key:z" did;
  decoded ← base58_decode encoded;
  key ← strip_tag ed25519_tag decoded;
  if decide (length key = 32%nat) then Some key else None.

(** Modelled from the spec: step 3 of [verify], an expiry that is present
    and at or before the current time. *)
Definition expired (c : AssertionPayload) (now : Z) : bool :=
  match expiresAt c with
  | Some exp => exp <=? now
  | None => false
  end.

(** Modelled from the spec: step 4 of [verify], the audience check when
    the policy asks for it. *)
Definition audience_mismatch (c : AssertionPayload) (policy : VerificationPolicy)
    : bool :=
  requireAudience policy
  && negb (bool_decide (audience c = Some (expectedAudience policy))).

(** Modelled from the spec: [verify] of section 4.1, seven steps in
    order, the first failure deciding the result; its source, the shared
    JWT package ([decodeAndVerifyJWT]), is not among the files of the
    server.  [now] is the current time in the unit of [exp]. *)
Definition verify (token : string) (policy : VerificationPolicy) (now : Z)
    : VerificationError + AssertionPayload :=
  match decode token with
  | inl e => inl e
  | inr d =>
      if expired (claims d) now then inl Expired
      else if audience_mismatch (claims d) policy then inl AudienceMismatch
      else match resolveKey (issuer (claims d)) with
           | None => inl InvalidIdentifier
           | Some key =>
               if ed25519_verify key (signingInput d) (signatureBytes d)
               then inr (claims d)
               else inl InvalidSignature
           end
  end.

End Pipeline.
End Verification.

(** ** The Worker *)

(** The route handlers of [server/src/index.ts].  The JWT verifier of
    the shared package and the user model over the database are not
    among the files of the server: they are parameters, each returning
    either the message of the error it throws or its value. *)
Module Worker.

(** What a handler returns: [c.json(body, status)], [c.text(text,
    status)], or the response of the Durable Object handed through. *)
Inductive Reply :=
| ReplyJson (body : json) (status : Z)
| ReplyText (text : string) (status : Z)
| ReplyFrom (response : Response).

Definition reply_status (r : Reply) : Z :=
  match r with
  | ReplyJson _ s | ReplyText _ s => s
  | ReplyFrom response => status response
  end.

(** The payload [decodeAndVerifyJWT] resolves to, as far as the handlers
    read it; [data] is [None] when the token carries none. *)
Record JWTPayload := mkJWT {
  iss : string;
  data : option json
}.

(** What [console.error] is called with, by handler. *)
Inductive Logged :=
| AddUserError (message : string)
| AddAvatarError (message : string)
| RemoveUserError (message : string)
| FetchUsersError (message : string)
| NotifyError (message : string).

(** The request as the handlers read it: what [c.req.json()] yields, or
    the message of the error it throws, and the [Upgrade] header. *)
Record Incoming := mkIncoming {
  jsonBody : string + json;
  upgradeHeader : option string
}.

Class Collaborators := {
  DB : Type;
  (* the message of the TypeError raised by destructuring null or undefined *)
  typeError : string;
  (* the message of an exception that escapes the Durable Object *)
  exnMessage : Exn → string;
  decodeAndVerifyJWT : json → string + JWTPayload;
  addOrUpdateUser : DB → option json → option json → json → (string + json) * DB;
  addOrUpdateUserAvatar : DB → string → json → (string + json) * DB;
  deleteUserByDID : DB → string → (string + unit) * DB;
  getAllUsers : DB → (string + json) * DB
}.

(** [x.field] on a parsed JSON value: the last binding of an object,
    [undefined] on anything else that is not null. *)
Definition js_get (field : string) (value : json) : option json :=
  match value with
  | JObj fields => snd <$> last (filter (λ kv, kv.1 = field) fields)
  | _ => None
  end.

(** Truthiness of a JSON value. *)
Definition js_truthy (value : json) : bool :=
  match value with
  | JNull => false
  | JBool b => b
  | JNum n => negb (n =? 0)
  | JStr s => negb (String.eqb s "")
  | JArr _ | JObj _ => true
  end.

(** [undefined] and [null]. *)
Definition nullish (value : option json) : bool :=
  match value with
  | None | Some JNull => true
  | Some _ => false
  end.

(** [value ?? fallback] *)
Definition nullish_or (value : option json) (fallback : json) : json :=
  match value with
  | None | Some JNull => fallback
  | Some v => v
  end.

(** A handler resolves to a value or throws an error with a message. *)
Inductive Outcome (A : Type) :=
| Done (a : A)
| Raised (message : string).
Arguments Done {A} a.
Arguments Raised {A} message.

Section Handlers.
Context `{!Runtime} `{!Collaborators}.

(** The bindings of [c.env] and the Worker's log: the database, the one
    Durable Object, and the message of the error [stub.fetch] throws
    when the object cannot be reached. *)
Record Env := mkEnv {
  database : DB;
  object : World;
  objectFailure : option string;
  logged : list Logged
}.

Definition set_database (v : DB) (env : Env) : Env :=
  mkEnv v (object env) (objectFailure env) (logged env).
Definition set_object (v : World) (env : Env) : Env :=
  mkEnv (database env) v (objectFailure env) (logged env).
Definition log_error (entry : Logged) (env : Env) : Env :=
  mkEnv (database env) (object env) (objectFailure env) (logged env ++ [entry]).

Definition W (A : Type) : Type := Env → Outcome A * Env.

#[export] Instance W_ret : MRet W := λ A a env, (Done a, env).
#[export] Instance W_bind : MBind W := λ A B f m env,
  match m env with
  | (Done a, env') => f a env'
  | (Raised message, env') => (Raised message, env')
  end.

(** [try { body } catch (error) { handler }], the handler reading
    [(error as Error).message]. *)
Definition try_catch_message {A} (body : W A) (handler : string → W A) : W A :=
  λ env,
  match body env with
  | (Done a, env') => (Done a, env')
  | (Raised message, env') => handler message env'
  end.

Definition console_error (entry : Logged) : W unit :=
  λ env, (Done (), log_error entry env).

(** A call that resolves or throws, without touching the bindings. *)
Definition await {A} (r : string + A) : W A := λ env,
  match r with
  | inl message => (Raised message, env)
  | inr a => (Done a, env)
  end.

(** A call on the database handle [createDb(c.env.DB)]. *)
Definition query {A} (op : DB → (string + A) * DB) : W A := λ env,
  match op (database env) with
  | (inl message, db') => (Raised message, set_database db' env)
  | (inr a, db') => (Done a, set_database db' env)
  end.

(** [const { field } = value]: a TypeError on null and undefined. *)
Definition destructure (field : string) (value : option json)
    : W (option json) :=
  if nullish value then await (inl typeError)
  else mret (value ≫= js_get field).

(** [stub.fetch(request)] on the object named [default]. *)
Definition stub_fetch (request : Request) : W Response := λ env,
  match objectFailure env with
  | Some message => (Raised message, env)
  | None =>
      match Broadcaster.fetch request (object env) with
      | (Ok response, w') => (Done response, set_object w' env)
      | (Throw e, w') => (Raised (exnMessage e), set_object w' env)
      end
  end.

Definition notifyDO (event : string) (data : json) : W unit :=
  try_catch_message
    (stub_fetch (notifyDO_request event data);; mret ())
    (λ message, console_error (NotifyError message)).

Definition failure (error message : string) : Reply :=
  ReplyJson (JObj [("error", JStr error); ("message", JStr message)]) 500.

Definition add_user (request : Incoming) : W Reply :=
  try_catch_message
    (body ← await (jsonBody request);
     profileJwt ← destructure "profileJwt" (Some body);
     match profileJwt with
     | Some jwt =>
         if js_truthy jwt then
           profilePayload ← await (decodeAndVerifyJWT jwt);
           did ← destructure "did" (data profilePayload);
           name ← destructure "name" (data profilePayload);
           socials ← destructure "socials" (data profilePayload);
           user ← query (λ db, addOrUpdateUser db did name
                                  (nullish_or socials (JArr [])));
           notifyDO "user-joined" user;;
           mret (ReplyJson user 200)
         else mret (ReplyJson (JObj [("error", JStr "Missing profileJwt")]) 400)
     | None => mret (ReplyJson (JObj [("error", JStr "Missing profileJwt")]) 400)
     end)
    (λ message,
     console_error (AddUserError message);;
     mret (failure "Failed to add user" message)).

Definition add_avatar (request : Incoming) : W Reply :=
  try_catch_message
    (body ← await (jsonBody request);
     avatarJwt ← destructure "avatarJwt" (Some body);
     match avatarJwt with
     | Some jwt =>
         if js_truthy jwt then
           avatarPayload ← await (decodeAndVerifyJWT jwt);
           let did := iss avatarPayload in
           avatar ← destructure "avatar" (data avatarPayload);
           match avatar with
           | Some picture =>
               if js_truthy picture then
                 user ← query (λ db, addOrUpdateUserAvatar db did picture);
                 notifyDO "user-joined" user;;
                 mret (ReplyJson user 200)
               else mret (ReplyJson (JObj [("error", JStr "No avatar data in JWT")]) 400)
           | None => mret (ReplyJson (JObj [("error", JStr "No avatar data in JWT")]) 400)
           end
         else mret (ReplyJson (JObj [("error", JStr "Missing avatarJwt")]) 400)
     | None => mret (ReplyJson (JObj [("error", JStr "Missing avatarJwt")]) 400)
     end)
    (λ message,
     console_error (AddAvatarError message);;
     mret (failure "Failed to add avatar" message)).

Definition remove_user (request : Incoming) : W Reply :=
  try_catch_message
    (body ← await (jsonBody request);
     profileJwt ← destructure "profileJwt" (Some body);
     match profileJwt with
     | Some jwt =>
         if js_truthy jwt then
           payload ← await (decodeAndVerifyJWT jwt);
           let did := iss payload in
           query (λ db, deleteUserByDID db did);;
           notifyDO "user-left" (JObj [("did", JStr did)]);;
           mret (ReplyJson (JObj [("success", JBool true); ("did", JStr did)]) 200)
         else mret (ReplyJson (JObj [("error", JStr "Missing profileJwt")]) 400)
     | None => mret (ReplyJson (JObj [("error", JStr "Missing profileJwt")]) 400)
     end)
    (λ message,
     console_error (RemoveUserError message);;
     mret (failure "Failed to remove user" message)).

Definition users : W Reply :=
  try_catch_message
    (all ← query getAllUsers;
     mret (ReplyJson (JObj [("users", all)]) 200))
    (λ message,
     console_error (FetchUsersError message);;
     mret (failure "Failed to fetch users" message)).

(** [GET /api/ws]: the request built for the object carries the headers
    of the incoming one, so its [Upgrade] header is the one just read. *)
Definition ws (request : Incoming) : W Reply :=
  if decide (upgradeHeader request ≠ Some "websocket") then
    mret (ReplyText "Expected WebSocket upgrade" 426)
  else
    response ← stub_fetch (mkRequest "/ws" "GET" (upgradeHeader request) None);
    mret (ReplyFrom response).

End Handlers.
End Worker.

(** A stand-in runtime for running the model on concrete inputs: a plain
    printer without escaping, and the epoch milliseconds in decimal for a
    date.  No theorem below depends on it. *)
Module Sample.

Definition dq : string := String (Ascii.ascii_of_nat 34) "".

Fixpoint show (j : json) : string :=
  match j with
  | JNull => "null"
  | JBool b => if b then "true" else "false"
  | JNum n => pretty n
  | JStr s => dq +:+ s +:+ dq
  | JArr xs =>
      "[" +:+ (fix items (xs : list json) : string :=
                 match xs with
                 | [] => ""
                 | [x] => show x
                 | x :: rest => show x +:+ "," +:+ items rest
                 end) xs +:+ "]"
  | JObj fields =>
      "{" +:+ (fix members (fs : list (string * json)) : string :=
                 match fs with
                 | [] => ""
                 | [(k, v)] => dq +:+ k +:+ dq +:+ ":" +:+ show v
                 | (k, v) :: rest =>
                     dq +:+ k +:+ dq +:+ ":" +:+ show v +:+ "," +:+ members rest
                 end) fields +:+ "}"
  end.

#[export] Instance runtime : Runtime :=
  {| JSON_stringify := show; toISOString := pretty |}.

(** A deployment constructed for the first time at 1000. *)
Definition started : World := run [(1000, Restarted)] (blank ∅).

(** The same with one observer, connected at 2000 on handle 1. *)
Definition one_observer : World :=
  run [(2000, Fetch upgrade_request)] started.

(** Two observers, on handles 1 and 3. *)
Definition two_observers : World :=
  run [(3000, Fetch upgrade_request)] one_observer.

(** Three observers on handles 1, 3 and 5, the second one stale. *)
Definition three_observers : World :=
  run [(1000, Restarted); (2000, Fetch upgrade_request);
       (3000, Fetch upgrade_request); (4000, Fetch upgrade_request)]
      (blank {[3%nat]}).

(** Stand-ins for the leaves of the verification pipeline: segments and
    identifiers are taken as they are, every payload reads as a claim set
    of one issuer that expires at 100, and every signature is accepted. *)
#[export] Instance primitives : Verification.Primitives :=
  {| Verification.base64url_decode := λ s, Some (String.list_byte_of_string s);
     Verification.parse_claims := λ bytes,
       Some (Verification.mkPayload (String.string_of_list_byte bytes) JNull
                                    (Some 100) None);
     Verification.base58_decode := λ s, Some (String.list_byte_of_string s);
     Verification.ed25519_tag := [];
     Verification.ed25519_verify := λ _ _ _, true |}.

(** Stand-ins for the Worker's collaborators: the database is the list
    of stored identifiers, the verifier accepts the one token [good],
    issued by [did:key:zAlice], and every database call succeeds. *)
Definition alice : Worker.JWTPayload :=
  Worker.mkJWT "did:key:zAlice"
    (Some (JObj [("did", JStr "did:key:zAlice"); ("name", JStr "Alice");
                 ("avatar", JStr "data:image/png;base64,AAAA")])).

Definition text_of (value : option json) : string :=
  match value with
  | Some (JStr s) => s
  | _ => ""
  end.

#[export] Instance collaborators : Worker.Collaborators :=
  {| Worker.DB := list string;
     Worker.typeError := "Cannot destructure";
     Worker.exnMessage := λ _, "Internal error";
     Worker.decodeAndVerifyJWT := λ jwt,
       match jwt with
       | JStr "good" => inr alice
       | _ => inl "Invalid signature"
       end;
     Worker.addOrUpdateUser := λ db did name socials,
       (inr (JObj [("did", JStr (text_of did)); ("name", JStr (text_of name));
                   ("socials", socials)]),
        text_of did :: db);
     Worker.addOrUpdateUserAvatar := λ db did avatar,
       (inr (JObj [("did", JStr did); ("avatar", avatar)]), did :: db);
     Worker.deleteUserByDID := λ db did,
       (inr (), filter (λ stored, stored ≠ did) db);
     Worker.getAllUsers := λ db, (inr (JArr (JStr <$> db)), db) |}.

(** A request whose body is [{profileJwt, avatarJwt}], both [token]. *)
Definition posting (token : json) : Worker.Incoming :=
  Worker.mkIncoming
    (inr (JObj [("profileJwt", token); ("avatarJwt", token)])) None.

(** The bindings of a Worker with Alice stored, the object having three
    observers, the second one stale. *)
Definition bindings (failure : option string) : Worker.Env :=
  Worker.mkEnv ["did:key:zAlice"] three_observers failure [].

End Sample.

(** ** Bookkeeping lemmas *)

Lemma emits_nil w : emits [] w = w.
Proof. destruct w; unfold emits; simpl. by rewrite app_nil_r. Qed.

Lemma emit_emits e w : emit e w = emits [e] w.
Proof. reflexivity. Qed.

Lemma emits_emits es1 es2 w : emits es2 (emits es1 w) = emits (es1 ++ es2) w.
Proof. destruct w; unfold emits; simpl. by rewrite app_assoc. Qed.

Lemma drop_trace_app (w : World) (es : list Effect) :
  drop (length (trace w)) (trace w ++ es) = es.
Proof. by rewrite drop_app_length. Qed.

(** Unfold the plumbing of [M] and normalise the trace. *)
Ltac unfold_M :=
  unfold mbind, M_bind, mret, M_ret, try_catch, Date_now, getWebSockets,
    console, storage_get, storage_put, storage_deleteAll, storage_setAlarm,
    acceptWebSocket, new_WebSocketPair, request_json, read, modify, exec,
    result, effects_of in *.

Lemma set_lastActivity_emits v es w :
  set_lastActivity v (emits es w) = emits es (set_lastActivity v w).
Proof. reflexivity. Qed.
Lemma set_meetupStartTime_emits v es w :
  set_meetupStartTime v (emits es w) = emits es (set_meetupStartTime v w).
Proof. reflexivity. Qed.
Lemma set_webSockets_emits v es w :
  set_webSockets v (emits es w) = emits es (set_webSockets v w).
Proof. reflexivity. Qed.
Lemma set_storage_emits v es w :
  set_storage v (emits es w) = emits es (set_storage v w).
Proof. reflexivity. Qed.
Lemma set_alarmAt_emits v es w :
  set_alarmAt v (emits es w) = emits es (set_alarmAt v w).
Proof. reflexivity. Qed.

Ltac flatten_trace :=
  rewrite ?emit_emits, ?set_lastActivity_emits, ?set_meetupStartTime_emits,
    ?set_webSockets_emits, ?set_storage_emits, ?set_alarmAt_emits,
    ?emits_emits; simpl app.

Section Equations.
Context `{!Runtime}.

Lemma forEach_send_eq (connections : list WebSocket) (message : string) (w : World) :
  forEach connections
    (λ ws, try_catch (ws_send ws message) (λ err, console LogErrorSending)) w
  = (Ok (), emits (connections ≫= send_effects (stale w) message) w).
Proof.
  revert w. induction connections as [|ws rest IH]; intros w.
  - simpl. by rewrite emits_nil.
  - simpl. unfold mbind at 1, M_bind, try_catch, ws_send, send_effects.
    destruct (decide (ws ∈ stale w)); simpl;
      rewrite IH, ?emit_emits, ?emits_emits; reflexivity.
Qed.

Lemma broadcast_eq (event : string) (data : json) (w : World) :
  Broadcaster.broadcast event data w
  = (Ok (), emits (Console (LogBroadcasting event (length (webSockets w)))
                   :: (webSockets w ≫=
                         send_effects (stale w)
                           (JSON_stringify (JObj [("type", JStr event); ("data", data)]))))
                  w).
Proof.
  unfold Broadcaster.broadcast, mbind, M_bind, getWebSockets, read, console, modify.
  rewrite forEach_send_eq. rewrite emit_emits, emits_emits. reflexivity.
Qed.

Lemma scheduleAlarm_eq (w : World) :
  Broadcaster.scheduleAlarm w
  = (Ok (), emits [AlarmSet (clock w + 30 * 60 * 1000);
                   Console (LogScheduledAlarm (toISOString (clock w + 30 * 60 * 1000)))]
                  (set_alarmAt (Some (clock w + 30 * 60 * 1000)) w)).
Proof. unfold Broadcaster.scheduleAlarm. unfold_M. by flatten_trace. Qed.

Lemma handleWebSocket_eq (ws : WebSocket) (w : World) :
  Broadcaster.handleWebSocket ws w
  = (Ok (),
     emits ([Accepted ws; Console (LogNewConnection (length (webSockets w ++ [ws])))]
            ++ connected_effects w ws
                 (connected_message (clock w) (length (webSockets w ++ [ws])))
            ++ [AlarmSet (clock w + 30 * 60 * 1000);
                Console (LogScheduledAlarm (toISOString (clock w + 30 * 60 * 1000)))])
       (set_alarmAt (Some (clock w + 30 * 60 * 1000))
          (set_lastActivity (clock w)
             (set_webSockets (webSockets w ++ [ws]) w)))).
Proof.
  unfold Broadcaster.handleWebSocket, connected_effects, connected_message.
  unfold_M. unfold ws_send. simpl.
  destruct (decide (ws ∈ stale w)); simpl;
    rewrite scheduleAlarm_eq; simpl; by flatten_trace.
Qed.

Lemma webSocketClose_eq ws code reason wasClean (w : World) :
  Broadcaster.webSocketClose ws code reason wasClean w
  = (Ok (),
     if decide (length (webSockets w) = 0%nat) then
       emits [Console (LogClosed code (length (webSockets w)));
              Console LogNoMoreConnections;
              AlarmSet (clock w + 30 * 60 * 1000);
              Console (LogScheduledAlarm (toISOString (clock w + 30 * 60 * 1000)))]
         (set_alarmAt (Some (clock w + 30 * 60 * 1000))
            (set_lastActivity (clock w) w))
     else
       emits [Console (LogClosed code (length (webSockets w)))]
         (set_lastActivity (clock w) w)).
Proof.
  unfold Broadcaster.webSocketClose. unfold_M. simpl.
  destruct (decide (length (webSockets w) = 0%nat)); simpl.
  - rewrite scheduleAlarm_eq. simpl. by flatten_trace.
  - by flatten_trace.
Qed.

Lemma alarm_eq (w : World) :
  Broadcaster.alarm w
  = (Ok (),
     if decide (length (webSockets w) = 0%nat
                ∧ clock w - lastActivity w > 2 * 60 * 60 * 1000) then
       emits ([Console (LogAlarmTriggered
                          (round_minutes (clock w - lastActivity w))
                          (round_minutes (clock w - meetupStartTime w))
                          (length (webSockets w)));
               Console LogMeetupEnded]
              ++ effects_of (Broadcaster.broadcast "meetup-ended"
                               Broadcaster.meetup_ended_data) w
              ++ [StorageDeleteAll])
         (set_storage ∅ w)
     else
       emits [Console (LogAlarmTriggered
                         (round_minutes (clock w - lastActivity w))
                         (round_minutes (clock w - meetupStartTime w))
                         (length (webSockets w)));
              AlarmSet (clock w + 30 * 60 * 1000);
              Console (LogScheduledAlarm (toISOString (clock w + 30 * 60 * 1000)))]
         (set_alarmAt (Some (clock w + 30 * 60 * 1000)) w)).
Proof.
  unfold Broadcaster.alarm, effects_of, exec.
  rewrite broadcast_eq. simpl. rewrite drop_trace_app.
  unfold_M. simpl.
  destruct (decide (length (webSockets w) = 0%nat
                    ∧ clock w - lastActivity w > 2 * 60 * 60 * 1000)); simpl.
  - rewrite broadcast_eq. simpl. by flatten_trace.
  - rewrite scheduleAlarm_eq. simpl. by flatten_trace.
Qed.

Lemma constructor_eq (w : World) :
  Broadcaster.constructor w
  = (Ok (),
     if truthy (storage w !! "meetupStartTime") then
       emits [Console (LogLoadedStartTime
                         (toISOString (default 0 (storage w !! "meetupStartTime"))))]
         (set_meetupStartTime (default 0 (storage w !! "meetupStartTime"))
            (set_lastActivity (clock w) w))
     else
       emits [StoragePut "meetupStartTime" (clock w);
              Console (LogInitializedStartTime (toISOString (clock w)))]
         (set_storage (<["meetupStartTime" := clock w]> (storage w))
            (set_meetupStartTime (clock w) (set_lastActivity (clock w) w)))).
Proof.
  unfold Broadcaster.constructor. unfold_M. simpl.
  destruct (truthy (storage w !! "meetupStartTime")); simpl; by flatten_trace.
Qed.

Lemma fetch_eq (request : Request) (w : World) :
  Broadcaster.fetch request w
  = if decide (pathname request = "/ws") then
      if decide (upgrade request ≠ Some "websocket") then
        (Ok (mkResponse (Some "Expected WebSocket upgrade") 426 None), w)
      else
        (Ok (mkResponse None 101 (Some (nextSocket w))),
         exec (Broadcaster.handleWebSocket (S (nextSocket w)))
              (set_nextSocket (S (S (nextSocket w))) w))
    else if decide (pathname request = "/broadcast" ∧ method request = "POST") then
      match body request with
      | Some (event, data) =>
          (Ok (mkResponse (Some "OK") 200 None),
           exec (Broadcaster.broadcast event data) w)
      | None =>
          (Ok (mkResponse (Some "Invalid request") 400 None),
           emits [Console LogErrorBroadcast] w)
      end
    else (Ok (mkResponse (Some "Not found") 404 None), w).
Proof.
  unfold Broadcaster.fetch.
  destruct (decide (pathname request = "/ws")).
  - destruct (decide (upgrade request ≠ Some "websocket")); [done|].
    unfold_M. simpl. by rewrite handleWebSocket_eq.
  - destruct (decide (pathname request = "/broadcast" ∧ method request = "POST"));
      [|done].
    unfold_M. destruct (body request) as [[event data]|]; simpl; [|done].
    by rewrite broadcast_eq.
Qed.

End Equations.

(** ** Reading the trace of a fan-out *)

Lemma attempts_send_effects broken message (connections : list WebSocket) :
  attempts (connections ≫= send_effects broken message)
  = (λ ws, (ws, message)) <$> connections.
Proof.
  induction connections as [|ws rest IH]; [done|].
  rewrite bind_cons, fmap_cons. unfold attempts in *.
  rewrite omap_app, IH. unfold send_effects.
  by destruct (decide (ws ∈ broken)).
Qed.

Lemma deliveries_send_effects broken message (connections : list WebSocket) :
  deliveries (connections ≫= send_effects broken message)
  = (λ ws, (ws, message)) <$> filter (λ ws, ws ∉ broken) connections.
Proof.
  induction connections as [|ws rest IH]; [done|].
  rewrite bind_cons, filter_cons. unfold deliveries in *.
  rewrite omap_app, IH. unfold send_effects.
  destruct (decide (ws ∈ broken)), (decide (ws ∉ broken)); try done.
Qed.

Lemma closings_send_effects broken message (connections : list WebSocket) :
  closings (connections ≫= send_effects broken message) = [].
Proof.
  induction connections as [|ws rest IH]; [done|].
  rewrite bind_cons. unfold closings in *.
  rewrite omap_app, IH. unfold send_effects.
  by destruct (decide (ws ∈ broken)).
Qed.

Lemma filter_keeps_all (P : WebSocket → Prop) `{!∀ x, Decision (P x)}
    (l : list WebSocket) :
  (∀ x, x ∈ l → P x) → filter P l = l.
Proof.
  induction l as [|x l IH]; intros Hall; [done|].
  rewrite filter_cons. destruct (decide (P x)) as [|Hn].
  - f_equal. apply IH. intros y Hy. apply Hall. by right.
  - exfalso. apply Hn, Hall. left.
Qed.

(** Dropping the one element of a duplicate-free list that fails a test. *)
Lemma length_filter_all_but_one (P : WebSocket → Prop) `{!∀ x, Decision (P x)}
    (l : list WebSocket) (b : WebSocket) :
  NoDup l → b ∈ l → (∀ x, x ∈ l → ¬ P x ↔ x = b) →
  length (filter P l) = (length l - 1)%nat.
Proof.
  induction l as [|x l IH]; intros Hnd Hin Hone.
  - by apply elem_of_nil in Hin.
  - apply NoDup_cons in Hnd as [Hx Hnd]. rewrite filter_cons.
    destruct (decide (x = b)) as [->|Hxb].
    + assert (¬ P b) as HPb by (apply Hone; [left|done]).
      destruct (decide (P b)); [done|]. simpl. rewrite Nat.sub_0_r.
      f_equal. apply filter_keeps_all. intros y Hy.
      destruct (decide (P y)) as [|Hn]; [done|].
      apply Hone in Hn; [|by right]. by subst.
    + assert (P x) as HPx.
      { destruct (decide (P x)) as [|Hn]; [done|].
        apply Hone in Hn; [done|left]. }
      destruct (decide (P x)); [|done]. simpl.
      apply elem_of_cons in Hin as [->|Hin]; [done|].
      rewrite IH; [|done|done|].
      * destruct l; [by apply elem_of_nil in Hin|simpl; lia].
      * intros z Hz. apply Hone. by right.
Qed.

Section Claims.
Context `{!Runtime}.

Lemma broadcast_effects (event : string) (data : json) (w : World) :
  effects_of (Broadcaster.broadcast event data) w
  = Console (LogBroadcasting event (length (webSockets w)))
    :: (webSockets w ≫=
          send_effects (stale w)
            (JSON_stringify (JObj [("type", JStr event); ("data", data)]))).
Proof.
  unfold effects_of, exec. rewrite broadcast_eq. simpl. apply drop_trace_app.
Qed.

Lemma alarm_effects (w : World) :
  effects_of Broadcaster.alarm w
  = if decide (length (webSockets w) = 0%nat
               ∧ clock w - lastActivity w > 2 * 60 * 60 * 1000) then
      [Console (LogAlarmTriggered
                  (round_minutes (clock w - lastActivity w))
                  (round_minutes (clock w - meetupStartTime w))
                  (length (webSockets w)));
       Console LogMeetupEnded]
      ++ effects_of (Broadcaster.broadcast "meetup-ended"
                       Broadcaster.meetup_ended_data) w
      ++ [StorageDeleteAll]
    else
      [Console (LogAlarmTriggered
                  (round_minutes (clock w - lastActivity w))
                  (round_minutes (clock w - meetupStartTime w))
                  (length (webSockets w)));
       AlarmSet (clock w + 30 * 60 * 1000);
       Console (LogScheduledAlarm (toISOString (clock w + 30 * 60 * 1000)))].
Proof.
  unfold effects_of at 1, exec. rewrite alarm_eq. simpl.
  case_decide; simpl; apply drop_trace_app.
Qed.

Lemma alarm_world (w : World) :
  exec Broadcaster.alarm w
  = emits (effects_of Broadcaster.alarm w)
      (if decide (length (webSockets w) = 0%nat
                  ∧ clock w - lastActivity w > 2 * 60 * 60 * 1000)
       then set_storage ∅ w
       else set_alarmAt (Some (clock w + 30 * 60 * 1000)) w).
Proof.
  rewrite alarm_effects. unfold exec. rewrite alarm_eq. simpl.
  by case_decide.
Qed.

(** C2.  [broadcast] serialises [{type: event, data}] once, calls [send]
    with it on every live connection in turn, and returns normally
    whatever the handles do: each connection whose [send] does not throw
    receives the message.  When exactly one of N distinct connections
    throws, the other N-1 are all served. *)
Theorem broadcast_is_partial_failure_tolerant (event : string) (data : json)
    (w : World) :
  let message := JSON_stringify (JObj [("type", JStr event); ("data", data)]) in
  let es := effects_of (Broadcaster.broadcast event data) w in
  result (Broadcaster.broadcast event data) w = Ok ()
  ∧ attempts es = (λ ws, (ws, message)) <$> webSockets w
  ∧ deliveries es
    = (λ ws, (ws, message)) <$> filter (λ ws, ws ∉ stale w) (webSockets w)
  ∧ (∀ ws, ws ∈ webSockets w → ws ∉ stale w → (ws, message) ∈ deliveries es)
  ∧ (∀ broken,
       NoDup (webSockets w) → broken ∈ webSockets w →
       (∀ ws, ws ∈ webSockets w → ws ∈ stale w ↔ ws = broken) →
       length (deliveries es) = (length (webSockets w) - 1)%nat).
Proof.
  intros message es. subst es. unfold effects_of, exec, result.
  rewrite broadcast_eq. simpl. rewrite drop_trace_app. fold message.
  assert (deliveries
            (Console (LogBroadcasting event (length (webSockets w)))
             :: (webSockets w ≫= send_effects (stale w) message))
          = (λ ws, (ws, message)) <$> filter (λ ws, ws ∉ stale w) (webSockets w))
    as Hdel by apply deliveries_send_effects.
  split_and!.
  - done.
  - apply attempts_send_effects.
  - done.
  - intros ws Hin Hok. rewrite Hdel.
    apply (list_elem_of_fmap_2 (λ ws, (ws, message))).
    by apply list_elem_of_filter.
  - intros broken Hnd Hin Hone. rewrite Hdel, length_fmap.
    apply (length_filter_all_but_one _ _ broken); [done..|].
    intros ws Hws. rewrite <- (Hone ws Hws).
    split; [apply dec_stable | by intros ? ?].
Qed.

(** C1.  When the alarm fires with no live connection and more than two
    hours since the last activity, the handler logs, runs a broadcast of
    [meetup-ended] with reason [idle], then empties the durable storage,
    and sets no alarm.  In every other case the only thing it does,
    besides logging, is to set the alarm thirty minutes ahead. *)
Theorem alarm_ends_idle_session_or_reschedules (w : World) :
  let idleTime := clock w - lastActivity w in
  let es := effects_of Broadcaster.alarm w in
  let w' := exec Broadcaster.alarm w in
  result Broadcaster.alarm w = Ok ()
  ∧ if decide (length (webSockets w) = 0%nat ∧ idleTime > 2 * 60 * 60 * 1000) then
      es = [Console (LogAlarmTriggered (round_minutes idleTime)
                       (round_minutes (clock w - meetupStartTime w)) 0);
            Console LogMeetupEnded]
           ++ effects_of (Broadcaster.broadcast "meetup-ended"
                            (JObj [("reason", JStr "idle");
                                   ("message", JStr "Meetup ended due to inactivity")])) w
           ++ [StorageDeleteAll]
      ∧ actions es = [StorageDeleteAll]
      ∧ (∀ t, AlarmSet t ∉ es)
      ∧ storage w' = ∅
      ∧ w' = emits es (set_storage ∅ w)
    else
      actions es = [AlarmSet (clock w + 30 * 60 * 1000)]
      ∧ w' = emits es (set_alarmAt (Some (clock w + 30 * 60 * 1000)) w).
Proof.
  intros idleTime es w'. subst es w' idleTime.
  change (JObj [("reason", JStr "idle");
                ("message", JStr "Meetup ended due to inactivity")])
    with Broadcaster.meetup_ended_data.
  split; [unfold result; by rewrite alarm_eq|].
  rewrite alarm_world, alarm_effects.
  destruct (decide (length (webSockets w) = 0%nat
                    ∧ clock w - lastActivity w > 2 * 60 * 60 * 1000))
    as [[Hnone Hidle]|Hactive]; [|done].
  rewrite Hnone, broadcast_effects.
  apply nil_length_inv in Hnone. rewrite Hnone. simpl.
  split_and!; try done.
  intros t. rewrite !elem_of_cons, elem_of_nil. intuition discriminate.
Qed.

(** C7.  With nobody connected and at most two hours since the last
    activity, a firing alarm leaves the storage as it is (the start-time
    key with it), calls [send] on nothing, logs no broadcast, and changes
    nothing but the alarm, which it sets thirty minutes ahead. *)
Theorem alarm_before_idle_threshold_keeps_session (w : World) :
  webSockets w = [] →
  clock w - lastActivity w ≤ 2 * 60 * 60 * 1000 →
  let es := effects_of Broadcaster.alarm w in
  let w' := exec Broadcaster.alarm w in
  storage w' = storage w
  ∧ storage w' !! "meetupStartTime" = storage w !! "meetupStartTime"
  ∧ attempts es = []
  ∧ (∀ event n, Console (LogBroadcasting event n) ∉ es)
  ∧ actions es = [AlarmSet (clock w + 30 * 60 * 1000)]
  ∧ w' = emits es (set_alarmAt (Some (clock w + 30 * 60 * 1000)) w).
Proof.
  intros Hnone Hrecent es w'. subst es w'.
  rewrite alarm_world, alarm_effects.
  destruct (decide (length (webSockets w) = 0%nat
                    ∧ clock w - lastActivity w > 2 * 60 * 60 * 1000))
    as [[_ Hidle]|_]; [lia|].
  split_and!; try done.
  intros event n. rewrite !elem_of_cons, elem_of_nil. intuition discriminate.
Qed.

(** C8.  Accepting a connection calls [send] exactly once, on the new
    handle, with the [connected] message carrying the time of the event
    and the size of the live set that now includes the handle.  No other
    connection receives anything. *)
Theorem connected_acknowledgment_is_private (ws : WebSocket) (w : World) :
  let message :=
    JSON_stringify
      (JObj [("type", JStr "connected");
             ("timestamp", JStr (toISOString (clock w)));
             ("connectionCount", JNum (Z.of_nat (S (length (webSockets w)))))]) in
  let es := effects_of (Broadcaster.handleWebSocket ws) w in
  webSockets (exec (Broadcaster.handleWebSocket ws) w) = webSockets w ++ [ws]
  ∧ attempts es = [(ws, message)]
  ∧ inbox ws es = (if decide (ws ∈ stale w) then [] else [message])
  ∧ (∀ other, other ≠ ws → inbox other es = []).
Proof.
  intros message es. subst es.
  unfold effects_of, exec. rewrite handleWebSocket_eq. simpl.
  rewrite drop_trace_app. unfold connected_effects, connected_message.
  rewrite length_app, Nat.add_1_r. fold message.
  split_and!; [done|..].
  - by destruct (decide (ws ∈ stale w)).
  - destruct (decide (ws ∈ stale w)); simpl; [done|].
    by rewrite decide_True.
  - intros other Hother.
    destruct (decide (ws ∈ stale w)); simpl; [done|].
    by rewrite decide_False.
Qed.

Lemma deliver_connect (w : World) (t : Z) :
  deliver w (t, Fetch upgrade_request)
  = exec (Broadcaster.handleWebSocket (S (nextSocket w)))
         (set_nextSocket (S (S (nextSocket w))) (set_clock t w)).
Proof.
  unfold deliver, dispatch, exec; simpl. unfold mbind, M_bind.
  rewrite fetch_eq. reflexivity.
Qed.

Lemma deliver_broadcast (w : World) (t : Z) (event : string) (data : json) :
  deliver w (t, Fetch (notifyDO_request event data))
  = exec (Broadcaster.broadcast event data) (set_clock t w).
Proof.
  unfold deliver, dispatch, exec; simpl. unfold mbind, M_bind.
  rewrite fetch_eq. reflexivity.
Qed.

Lemma deliver_close (w : World) (t : Z) ws code reason wasClean :
  deliver w (t, SocketClose ws code reason wasClean)
  = drop_handle ws
      (exec (Broadcaster.webSocketClose ws code reason wasClean)
            (set_clock t w)).
Proof.
  unfold deliver, dispatch, exec; simpl. unfold mbind, M_bind.
  by rewrite webSocketClose_eq.
Qed.

Lemma deliver_alarm (w : World) (t : Z) :
  deliver w (t, AlarmFires)
  = exec Broadcaster.alarm (set_alarmAt None (set_clock t w)).
Proof. reflexivity. Qed.

(** C3, as the code has it.  A new connection and a disconnect set
    [lastActivity] to the time of the event.  A broadcast, whether called
    directly or through the request [notifyDO] sends, leaves it as it
    was. *)
Theorem lastActivity_follows_connection_events (w : World) (t : Z) :
  lastActivity (deliver w (t, Fetch upgrade_request)) = t
  ∧ (∀ ws code reason wasClean,
       lastActivity (deliver w (t, SocketClose ws code reason wasClean)) = t)
  ∧ (∀ event data,
       lastActivity (exec (Broadcaster.broadcast event data) w) = lastActivity w)
  ∧ (∀ event data,
       lastActivity (deliver w (t, Fetch (notifyDO_request event data)))
       = lastActivity w).
Proof.
  split_and!.
  - rewrite deliver_connect. unfold exec. by rewrite handleWebSocket_eq.
  - intros ws code reason wasClean. rewrite deliver_close.
    unfold exec. rewrite webSocketClose_eq. simpl. by case_decide.
  - intros event data. unfold exec. by rewrite broadcast_eq.
  - intros event data. rewrite deliver_broadcast.
    unfold exec. by rewrite broadcast_eq.
Qed.

(** C4, as the code has it.  A connect sets the alarm thirty minutes
    after the event; a disconnect that leaves other connections live
    leaves the alarm alone; a firing alarm that does not end the session
    sets the next one thirty minutes ahead, and one that ends it leaves
    none pending.  [setAlarm] replaces whatever alarm was pending, so
    there is never more than one. *)
Theorem timer_is_set_by_connects_and_firings (w : World) (t : Z) :
  alarmAt (deliver w (t, Fetch upgrade_request)) = Some (t + 30 * 60 * 1000)
  ∧ (∀ ws code reason wasClean,
       filter (λ x, x ≠ ws) (webSockets w) ≠ [] →
       alarmAt (deliver w (t, SocketClose ws code reason wasClean)) = alarmAt w)
  ∧ alarmAt (deliver w (t, AlarmFires))
    = (if decide (length (webSockets w) = 0%nat
                  ∧ t - lastActivity w > 2 * 60 * 60 * 1000)
       then None
       else Some (t + 30 * 60 * 1000))
  ∧ (∀ time, alarmAt (exec (storage_setAlarm time) w) = Some time).
Proof.
  split_and!.
  - rewrite deliver_connect. unfold exec. by rewrite handleWebSocket_eq.
  - intros ws code reason wasClean Hothers. rewrite deliver_close.
    unfold exec. rewrite webSocketClose_eq. simpl.
    rewrite decide_False; [done|]. intros Hlen.
    apply nil_length_inv in Hlen. apply Hothers. by rewrite Hlen.
  - rewrite deliver_alarm, alarm_world. simpl. by case_decide.
  - done.
Qed.

(** *** The pending alarm is never further away than one period *)

Lemma deliver_clock_alarmAt (w : World) (t : Z) (ev : Event) :
  clock (deliver w (t, ev)) = t
  ∧ (alarmAt (deliver w (t, ev)) = alarmAt w
     ∨ alarmAt (deliver w (t, ev)) = Some (t + 30 * 60 * 1000)
     ∨ alarmAt (deliver w (t, ev)) = None).
Proof.
  destruct ev as [request|ws message|ws code reason wasClean|ws| |].
  - unfold deliver, dispatch, exec; simpl. unfold mbind, M_bind.
    rewrite fetch_eq.
    repeat case_decide; simpl; try (split; [done|by left]).
    + unfold exec. rewrite handleWebSocket_eq. simpl. split; [done|]. right. by left.
    + destruct (body request) as [[event data]|]; simpl.
      * unfold exec. rewrite broadcast_eq. simpl. split; [done|by left].
      * split; [done|by left].
  - split; [done|by left].
  - rewrite deliver_close. unfold exec. rewrite webSocketClose_eq. simpl.
    case_decide; simpl; (split; [done|]); [right|]; by left.
  - split; [done|by left].
  - rewrite deliver_alarm, alarm_world. simpl.
    case_decide; simpl; (split; [done|]); right; [right|left]; done.
  - unfold deliver, dispatch, exec; simpl. rewrite constructor_eq. simpl.
    destruct (truthy _); simpl; (split; [done|by left]).
Qed.

Lemma deliver_timely (w : World) (t : Z) (ev : Event) :
  clock w ≤ t → timely w → timely (deliver w (t, ev)).
Proof.
  intros Hlater Hw a Ha.
  destruct (deliver_clock_alarmAt w t ev) as [Hclock [Hsame|[Hset|Hnone]]];
    rewrite Hclock.
  - rewrite Hsame in Ha. specialize (Hw a Ha). lia.
  - rewrite Hset in Ha. injection Ha as <-. lia.
  - by rewrite Hnone in Ha.
Qed.

Lemma run_timely (evs : list (Z * Event)) (w : World) :
  in_order (clock w) evs → timely w → timely (run evs w).
Proof.
  revert w. induction evs as [|[t ev] evs IH]; intros w Hord Hw; [done|].
  destruct Hord as [Hle Hord]. simpl. apply IH.
  - by destruct (deliver_clock_alarmAt w t ev) as [-> _].
  - by apply deliver_timely.
Qed.

Lemma close_event_effects (w : World) ws code reason wasClean :
  effects_of (dispatch (SocketClose ws code reason wasClean)) w
  = if decide (length (webSockets w) = 0%nat) then
      [Console (LogClosed code (length (webSockets w)));
       Console LogNoMoreConnections;
       AlarmSet (clock w + 30 * 60 * 1000);
       Console (LogScheduledAlarm (toISOString (clock w + 30 * 60 * 1000)))]
    else [Console (LogClosed code (length (webSockets w)))].
Proof.
  unfold effects_of, dispatch, exec, mbind, M_bind.
  rewrite webSocketClose_eq. simpl.
  case_decide; simpl; apply drop_trace_app.
Qed.

(** C5, as the code has it.  In any execution, whatever a disconnect
    schedules is an alarm exactly one period, thirty minutes, after the
    disconnect: the delay of every other scheduling, and no sooner than
    the alarm that was pending.  The handler schedules it when it finds
    no connection listed. *)
Theorem disconnect_schedules_no_sooner_than_a_full_period
    (evs : list (Z * Event)) (broken : gset WebSocket) (t : Z)
    (ws : WebSocket) (code : Z) (reason : string) (wasClean : bool) :
  let w := run evs (blank broken) in
  let w' := deliver w (t, SocketClose ws code reason wasClean) in
  let es := effects_of (dispatch (SocketClose ws code reason wasClean))
                       (set_clock t w) in
  in_order 0 evs →
  clock w ≤ t →
  (∀ a, AlarmSet a ∈ es →
        a = t + 30 * 60 * 1000
        ∧ alarmAt w' = Some a
        ∧ (∀ standing, alarmAt w = Some standing → standing ≤ a))
  ∧ (webSockets w = [] → AlarmSet (t + 30 * 60 * 1000) ∈ es).
Proof.
  intros w w' es Hord Hlater. subst w' es.
  rewrite close_event_effects, deliver_close.
  unfold exec. rewrite webSocketClose_eq. simpl.
  destruct (decide (length (webSockets w) = 0%nat)) as [Hnone|Hsome]; split.
  - intros a Ha. rewrite !elem_of_cons, elem_of_nil in Ha.
    destruct Ha as [Ha|[Ha|[Ha|[Ha|[]]]]]; try discriminate Ha.
    injection Ha as ->. split_and!; [done..|].
    intros standing Hstanding.
    assert (timely w) as Hw by (apply run_timely; [done|by intros b Hb]).
    specialize (Hw standing Hstanding). lia.
  - intros _. rewrite !elem_of_cons. auto.
  - intros a Ha. rewrite !elem_of_cons, elem_of_nil in Ha.
    destruct Ha as [Ha|[]]. discriminate Ha.
  - intros Hnil. by rewrite Hnil in Hsome.
Qed.

(** *** No handler calls [close] *)



















Lemma deliver_webSockets (w : World) (t : Z) (ev : Event) :
  webSockets (deliver w (t, ev))
  = match ev with
    | Fetch request =>
        if decide (pathname request = "/ws"
                   ∧ upgrade request = Some "websocket")
        then webSockets w ++ [S (nextSocket w)]
        else webSockets w
    | SocketClose ws _ _ _ => filter (λ x, x ≠ ws) (webSockets w)
    | _ => webSockets w
    end.
Proof.
  destruct ev as [request|ws message|ws code reason wasClean|ws| |].
  - unfold deliver, dispatch, exec; simpl. unfold mbind, M_bind.
    rewrite fetch_eq.
    destruct (decide (pathname request = "/ws")) as [Hws|Hws].
    + destruct (decide (upgrade request ≠ Some "websocket")) as [Hup|Hup]; simpl.
      * rewrite decide_False; [done|]. by intros [_ ?].
      * rewrite decide_True; [|split; [done|by apply dec_stable]].
        unfold exec. by rewrite handleWebSocket_eq.
    + destruct (decide (pathname request = "/ws"
                        ∧ upgrade request = Some "websocket")) as [[? _]|_];
        [done|].
      case_decide; simpl; [|done].
      destruct (body request) as [[event data]|]; simpl; [|done].
      unfold exec. by rewrite broadcast_eq.
  - done.
  - rewrite deliver_close. unfold exec. rewrite webSocketClose_eq. simpl.
    by case_decide.
  - done.
  - rewrite deliver_alarm, alarm_world. simpl. by case_decide.
  - unfold deliver, dispatch, exec; simpl. rewrite constructor_eq. simpl.
    by destruct (truthy _).
Qed.


(** *** The stored start time survives restarts *)

Lemma truthy_Some (v : Z) : v ≠ 0 → truthy (Some v) = true.
Proof. intros Hv. simpl. by destruct (Z.eqb_spec v 0). Qed.

Lemma restart_loads (w : World) (t v : Z) :
  storage w !! "meetupStartTime" = Some v → v ≠ 0 →
  deliver w (t, Restarted)
  = emits [Console (LogLoadedStartTime (toISOString v))]
      (set_meetupStartTime v (set_lastActivity t (set_clock t w))).
Proof.
  intros Hstored Hv. unfold deliver, dispatch, exec; simpl.
  rewrite constructor_eq. simpl. rewrite Hstored, truthy_Some by done.
  reflexivity.
Qed.

Lemma restart_initializes (w : World) (t : Z) :
  storage w !! "meetupStartTime" = None →
  deliver w (t, Restarted)
  = emits [StoragePut "meetupStartTime" t;
           Console (LogInitializedStartTime (toISOString t))]
      (set_storage (<["meetupStartTime" := t]> (storage w))
         (set_meetupStartTime t (set_lastActivity t (set_clock t w)))).
Proof.
  intros Hstored. unfold deliver, dispatch, exec; simpl.
  rewrite constructor_eq. simpl. by rewrite Hstored.
Qed.

Lemma restarts_cons (t : Z) (ts : list Z) (w : World) :
  restarts (t :: ts) w = restarts ts (deliver w (t, Restarted)).
Proof. reflexivity. Qed.

Lemma restarts_keep_start_time (ts : list Z) (w : World) (v : Z) :
  storage w !! "meetupStartTime" = Some v → v ≠ 0 →
  let w' := restarts ts w in
  storage w' = storage w
  ∧ (∃ es, trace w' = trace w ++ es ∧ writes "meetupStartTime" es = [])
  ∧ meetupStartTime w' = match ts with [] => meetupStartTime w | _ => v end.
Proof.
  revert w. induction ts as [|t ts IH]; intros w Hstored Hv; simpl.
  - split_and!; try done. exists []. by rewrite app_nil_r.
  - rewrite restarts_cons, (restart_loads w t v) by done.
    set (w1 := emits _ _).
    destruct (IH w1) as (Hstorage & (es & Htrace & Hputs) & Hstart); [done..|].
    rewrite Hstorage. split_and!.
    + done.
    + exists (Console (LogLoadedStartTime (toISOString v)) :: es).
      rewrite Htrace. subst w1. simpl. by rewrite <- app_assoc.
    + rewrite Hstart. by destruct ts.
Qed.

(** C6.  Over any sequence of restarts, at clock readings other than
    zero: when a start time is already stored, no restart writes the key,
    the storage stays as it is and the instance takes the stored value;
    when the key is absent, the first restart stores its own time, that
    is the only write, and every later restart reads it back. *)
Theorem start_time_is_written_once (ts : list Z) (w : World) :
  Forall (λ t, t ≠ 0) ts →
  storage w !! "meetupStartTime" ≠ Some 0 →
  let w' := restarts ts w in
  let puts := writes "meetupStartTime" (drop (length (trace w)) (trace w')) in
  match storage w !! "meetupStartTime", ts with
  | Some v, [] => w' = w
  | Some v, _ :: _ =>
      storage w' = storage w ∧ puts = [] ∧ meetupStartTime w' = v
  | None, [] => w' = w
  | None, first :: _ =>
      storage w' = <["meetupStartTime" := first]> (storage w)
      ∧ puts = [first]
      ∧ meetupStartTime w' = first
  end.
Proof.
  intros Hclock Hstored w' puts. subst puts w'.
  destruct (storage w !! "meetupStartTime") as [v|] eqn:Hlookup.
  - assert (v ≠ 0) as Hv by congruence.
    destruct (restarts_keep_start_time ts w v Hlookup Hv)
      as (Hstorage & (es & Htrace & Hputs) & Hstart).
    destruct ts as [|t ts]; [done|].
    split_and!; [done| |done].
    by rewrite Htrace, drop_trace_app.
  - destruct ts as [|first ts]; [done|].
    apply Forall_cons in Hclock as [Hfirst _].
    rewrite restarts_cons, restart_initializes by done.
    set (w1 := emits _ _).
    destruct (restarts_keep_start_time ts w1 first)
      as (Hstorage & (es & Htrace & Hputs) & Hstart).
    { subst w1. simpl. apply lookup_insert_eq. }
    { done. }
    split_and!.
    + by rewrite Hstorage.
    + rewrite Htrace. subst w1. simpl. rewrite <- app_assoc.
      rewrite drop_trace_app. simpl. by rewrite Hputs.
    + rewrite Hstart. by destruct ts.
Qed.

End Claims.

(** ** The verification pipeline *)

Section VerifyClaims.
Context `{!Verification.Primitives}.

(** C10.  A token that decodes to claims with an expiry at or before the
    current time is rejected with [Expired], whatever the policy, the
    issuer and the signature; an expiry equal to the current time is
    included.  A later expiry, or none, never gives [Expired]. *)
Theorem verify_rejects_expired_assertions (token : string)
    (policy : Verification.VerificationPolicy) (now : Z)
    (d : Verification.Decoded) :
  Verification.decode token = inr d →
  (∀ exp, Verification.expiresAt (Verification.claims d) = Some exp →
          exp ≤ now →
          Verification.verify token policy now = inl Verification.Expired)
  ∧ (Verification.verify token policy now = inl Verification.Expired →
     ∃ exp, Verification.expiresAt (Verification.claims d) = Some exp
            ∧ exp ≤ now).
Proof.
  intros Hdecoded. unfold Verification.verify. rewrite Hdecoded.
  unfold Verification.expired. split.
  - intros exp -> Hexp. by rewrite (proj2 (Z.leb_le exp now)).
  - destruct (Verification.expiresAt (Verification.claims d)) as [exp|].
    + destruct (Z.leb_spec exp now) as [Hle|Hgt].
      * intros _. by exists exp.
      * destruct (Verification.audience_mismatch _ _); [done|].
        destruct (Verification.resolveKey _); [|done].
        by destruct (Verification.ed25519_verify _ _ _).
    + destruct (Verification.audience_mismatch _ _); [done|].
      destruct (Verification.resolveKey _); [|done].
      by destruct (Verification.ed25519_verify _ _ _).
Qed.

End VerifyClaims.

(** ** Further properties of the Broadcaster *)

Section More.
Context `{!Runtime}.

(** *** Requests *)

(** X1.  [fetch] answers every request and never throws.  A request it
    turns away with 426 or 404 leaves the world exactly as it was, and
    one it turns away with 400 leaves one line in the log. *)
Theorem fetch_always_answers (request : Request) (w : World) :
  ∃ response,
    result (Broadcaster.fetch request) w = Ok response
    ∧ status response ∈ [101; 426; 200; 400; 404]
    ∧ (status response = 426 ∨ status response = 404 →
       exec (Broadcaster.fetch request) w = w)
    ∧ (status response = 400 →
       exec (Broadcaster.fetch request) w = emits [Console LogErrorBroadcast] w).
Proof.
  unfold result, exec. rewrite fetch_eq.
  repeat case_decide; try destruct (body request) as [[event data]|];
    eexists; (split; [reflexivity|]); simpl;
    (split; [rewrite !elem_of_cons; auto 8|]);
    (split; [intros [Hstatus|Hstatus]|intros Hstatus]);
    first [reflexivity|discriminate Hstatus].
Qed.

(** X2.  A request for [/ws] with [Upgrade: websocket] is answered 101
    with the client end of a new pair; the server end joins the live set
    at the end, and nothing else enters or leaves it. *)
Theorem fetch_upgrade_accepts_one_connection (request : Request) (w : World) :
  pathname request = "/ws" →
  upgrade request = Some "websocket" →
  result (Broadcaster.fetch request) w
  = Ok (mkResponse None 101 (Some (nextSocket w)))
  ∧ webSockets (exec (Broadcaster.fetch request) w)
    = webSockets w ++ [S (nextSocket w)]
  ∧ nextSocket (exec (Broadcaster.fetch request) w) = S (S (nextSocket w))
  ∧ storage (exec (Broadcaster.fetch request) w) = storage w.
Proof.
  intros Hpath Hupgrade. unfold result, exec. rewrite fetch_eq.
  rewrite decide_True by done.
  rewrite decide_False by (intros Hne; by apply Hne).
  unfold exec. rewrite handleWebSocket_eq. done.
Qed.

(** X3.  [POST /broadcast] with a body that parses is answered 200 [OK]
    whatever the handles do, after [send] was called on every live
    handle; each handle that is not stale has received the message.  The
    same path with another method is answered 404 and nothing is sent. *)
Theorem fetch_broadcast_fans_out (request : Request) (event : string)
    (data : json) (w : World) :
  pathname request = "/broadcast" →
  body request = Some (event, data) →
  let message := JSON_stringify (JObj [("type", JStr event); ("data", data)]) in
  let es := effects_of (Broadcaster.fetch request) w in
  if decide (method request = "POST") then
    result (Broadcaster.fetch request) w = Ok (mkResponse (Some "OK") 200 None)
    ∧ attempts es = (λ ws, (ws, message)) <$> webSockets w
    ∧ deliveries es
      = (λ ws, (ws, message)) <$> filter (λ ws, ws ∉ stale w) (webSockets w)
  else
    result (Broadcaster.fetch request) w
    = Ok (mkResponse (Some "Not found") 404 None)
    ∧ es = [].
Proof.
  intros Hpath Hbody message es. subst es.
  unfold effects_of, result, exec. rewrite fetch_eq, Hpath, Hbody.
  destruct (decide ("/broadcast" = "/ws")) as [Hws|_]; [discriminate Hws|].
  destruct (decide (method request = "POST")) as [Hpost|Hother].
  - rewrite decide_True by done. unfold exec. rewrite broadcast_eq. simpl.
    rewrite drop_trace_app. fold message. split_and!; [done|..].
    + apply attempts_send_effects.
    + apply deliveries_send_effects.
  - rewrite decide_False by (by intros [_ ?]). simpl.
    split; [done|]. by rewrite drop_all.
Qed.

(** *** The live set *)

(** X4.  The live set changes in two ways only: an upgrade request
    appends the server end of a new pair, and a disconnect removes the
    handle that closed.  Broadcasts, client messages, errors, alarms and
    restarts leave it as it is, stale handles included. *)
Theorem live_set_changes_only_by_connect_and_disconnect
    (w : World) (t : Z) (ev : Event) :
  webSockets (deliver w (t, ev))
  = match ev with
    | Fetch request =>
        if decide (pathname request = "/ws"
                   ∧ upgrade request = Some "websocket")
        then webSockets w ++ [S (nextSocket w)]
        else webSockets w
    | SocketClose ws _ _ _ => filter (λ x, x ≠ ws) (webSockets w)
    | _ => webSockets w
    end.
Proof. apply deliver_webSockets. Qed.

(** X6.  An alarm that fires while somebody is connected never ends the
    session, however long ago the last activity was: the storage is
    kept, nothing is sent, and the next alarm is set thirty minutes
    ahead. *)
Theorem alarm_never_ends_a_connected_session (w : World) :
  webSockets w ≠ [] →
  storage (exec Broadcaster.alarm w) = storage w
  ∧ webSockets (exec Broadcaster.alarm w) = webSockets w
  ∧ attempts (effects_of Broadcaster.alarm w) = []
  ∧ alarmAt (exec Broadcaster.alarm w) = Some (clock w + 30 * 60 * 1000).
Proof.
  intros Hlive. rewrite alarm_world, alarm_effects.
  destruct (decide (length (webSockets w) = 0%nat
                    ∧ clock w - lastActivity w > 2 * 60 * 60 * 1000))
    as [[Hnone _]|_]; [|done].
  by apply nil_length_inv in Hnone.
Qed.

(** *** Closing and retrying *)

Lemma forEach_close_eq (connections : list WebSocket) (w : World) :
  forEach connections
    (λ ws, try_catch (ws_close ws 1000 "Meetup ended")
                     (λ err, console LogErrorClosing)) w
  = (Ok (), emits (connections ≫= close_effects (stale w)) w).
Proof.
  revert w. induction connections as [|ws rest IH]; intros w.
  - simpl. by rewrite emits_nil.
  - simpl. unfold mbind at 1, M_bind, try_catch, ws_close, close_effects.
    destruct (decide (ws ∈ stale w)); simpl;
      rewrite IH, ?emit_emits, ?emits_emits; reflexivity.
Qed.

Lemma closings_close_effects broken (connections : list WebSocket) :
  closings (connections ≫= close_effects broken) = connections.
Proof.
  induction connections as [|ws rest IH]; [done|].
  rewrite bind_cons. unfold closings in *.
  rewrite omap_app, IH. unfold close_effects.
  by destruct (decide (ws ∈ broken)).
Qed.

Lemma attempts_close_effects broken (connections : list WebSocket) :
  attempts (connections ≫= close_effects broken) = [].
Proof.
  induction connections as [|ws rest IH]; [done|].
  rewrite bind_cons. unfold attempts in *.
  rewrite omap_app, IH. unfold close_effects.
  by destruct (decide (ws ∈ broken)).
Qed.

(** X7.  [closeAllConnections] calls [close] once on every live handle,
    in order, with code 1000 and reason [Meetup ended]; a handle on
    which [close] throws does not keep the later ones from being closed,
    and the method returns normally.  It sends nothing and changes no
    state: the handles stay in the live set until the host reports them
    closed. *)
Theorem closeAllConnections_closes_every_handle (w : World) :
  let es := effects_of Broadcaster.closeAllConnections w in
  result Broadcaster.closeAllConnections w = Ok ()
  ∧ exec Broadcaster.closeAllConnections w = emits es w
  ∧ closings es = webSockets w
  ∧ attempts es = []
  ∧ (∀ ws, ws ∈ webSockets w → ws ∉ stale w →
           Closed ws 1000 "Meetup ended" ∈ es).
Proof.
  intros es.
  assert (Broadcaster.closeAllConnections w
          = (Ok (), emits (Console (LogClosing (length (webSockets w)))
                           :: (webSockets w ≫= close_effects (stale w))) w))
    as Heq.
  { unfold Broadcaster.closeAllConnections, mbind, M_bind, getWebSockets,
      read, console, modify.
    rewrite forEach_close_eq. by rewrite emit_emits, emits_emits. }
  subst es. unfold effects_of, exec, result. rewrite Heq. simpl.
  rewrite drop_trace_app. split_and!; [done|done|..].
  - apply closings_close_effects.
  - apply attempts_close_effects.
  - intros ws Hin Hok. right.
    apply list_elem_of_bind. exists ws. split; [|done].
    unfold close_effects. rewrite decide_False by done. left.
Qed.

(** X8.  A broadcast changes no state, so a handle on which [send] threw
    stays in the live set: the next broadcast calls [send] on the very
    same handles again, the stale ones included. *)
Theorem stale_handles_are_kept_and_retried (event1 event2 : string)
    (data1 data2 : json) (w : World) :
  let w1 := exec (Broadcaster.broadcast event1 data1) w in
  w1 = emits (effects_of (Broadcaster.broadcast event1 data1) w) w
  ∧ webSockets w1 = webSockets w
  ∧ attempts (effects_of (Broadcaster.broadcast event2 data2) w1)
    = (λ ws, (ws, JSON_stringify (JObj [("type", JStr event2); ("data", data2)])))
      <$> webSockets w.
Proof.
  intros w1. subst w1. rewrite !broadcast_effects.
  unfold exec. rewrite broadcast_eq. simpl. split_and!; [done..|].
  apply attempts_send_effects.
Qed.

(** *** The durable storage and the session *)

Lemma deliver_storage (w : World) (t : Z) (ev : Event) :
  storage (deliver w (t, ev))
  = match ev with
    | Restarted =>
        if truthy (storage w !! "meetupStartTime") then storage w
        else <["meetupStartTime" := t]> (storage w)
    | AlarmFires =>
        if decide (length (webSockets w) = 0%nat
                   ∧ t - lastActivity w > 2 * 60 * 60 * 1000)
        then ∅
        else storage w
    | _ => storage w
    end.
Proof.
  destruct ev as [request|ws message|ws code reason wasClean|ws| |].
  - unfold deliver, dispatch, exec; simpl. unfold mbind, M_bind.
    rewrite fetch_eq.
    repeat case_decide; simpl; try done.
    + unfold exec. by rewrite handleWebSocket_eq.
    + destruct (body request) as [[event data]|]; simpl; [|done].
      unfold exec. by rewrite broadcast_eq.
  - done.
  - rewrite deliver_close. unfold exec. rewrite webSocketClose_eq. simpl.
    by case_decide.
  - done.
  - rewrite deliver_alarm, alarm_world. simpl. by case_decide.
  - unfold deliver, dispatch, exec; simpl. rewrite constructor_eq. simpl.
    by destruct (truthy _).
Qed.

(** X9.  The durable storage is written in two places only: a restart
    that finds no start time stores its own, and an alarm that ends an
    idle session empties it.  Requests, connects, disconnects, client
    messages and errors never write it. *)
Theorem storage_changes_only_by_restart_and_idle_end
    (w : World) (t : Z) (ev : Event) :
  storage (deliver w (t, ev))
  = match ev with
    | Restarted =>
        if truthy (storage w !! "meetupStartTime") then storage w
        else <["meetupStartTime" := t]> (storage w)
    | AlarmFires =>
        if decide (length (webSockets w) = 0%nat
                   ∧ t - lastActivity w > 2 * 60 * 60 * 1000)
        then ∅
        else storage w
    | _ => storage w
    end.
Proof. apply deliver_storage. Qed.

(** X10.  After an alarm has ended an idle session, the instance still
    holds the old start time in memory; the next construction finds the
    storage empty and starts a new session at its own time. *)
Theorem fresh_session_after_idle_end (w : World) (t1 t2 : Z) :
  webSockets w = [] →
  t1 - lastActivity w > 2 * 60 * 60 * 1000 →
  let ended := deliver w (t1, AlarmFires) in
  let again := deliver ended (t2, Restarted) in
  storage ended = ∅
  ∧ alarmAt ended = None
  ∧ meetupStartTime ended = meetupStartTime w
  ∧ storage again = {["meetupStartTime" := t2]}
  ∧ meetupStartTime again = t2.
Proof.
  intros Hnone Hidle ended again.
  assert (ended
          = emits (effects_of Broadcaster.alarm (set_alarmAt None (set_clock t1 w)))
              (set_storage ∅ (set_alarmAt None (set_clock t1 w)))) as Hended.
  { subst ended. rewrite deliver_alarm, alarm_world. simpl.
    rewrite decide_True; [done|]. by rewrite Hnone. }
  assert (storage ended !! "meetupStartTime" = None) as Habsent
    by (by rewrite Hended).
  subst again. rewrite (restart_initializes ended t2 Habsent).
  rewrite Hended. simpl. split_and!; try done.
Qed.

(** *** The alarm *)

Lemma deliver_watched (w : World) (t : Z) (ev : Event) :
  watched w → watched (deliver w (t, ev)).
Proof.
  unfold watched. intros Hw. rewrite deliver_webSockets.
  destruct ev as [request|ws message|ws code reason wasClean|ws| |];
    try exact Hw.
  - case_decide as Hup.
    + intros _. destruct request as [path meth up bd]. simpl in Hup.
      destruct Hup as [-> ->].
      unfold deliver, dispatch, exec; simpl. unfold mbind, M_bind.
      rewrite fetch_eq. simpl. unfold exec. by rewrite handleWebSocket_eq.
    + intros Hlive. specialize (Hw Hlive).
      unfold deliver, dispatch, exec; simpl. unfold mbind, M_bind.
      rewrite fetch_eq.
      destruct (decide (pathname request = "/ws")) as [Hws|Hws].
      * destruct (decide (upgrade request ≠ Some "websocket")) as [Hne|Hne];
          [done|].
        exfalso. apply Hup. split; [done|by apply dec_stable].
      * case_decide; simpl; [|done].
        destruct (body request) as [[event data]|]; simpl; [|done].
        unfold exec. by rewrite broadcast_eq.
  - intros Hlive. rewrite deliver_close. unfold exec.
    rewrite webSocketClose_eq. simpl.
    rewrite decide_False.
    + simpl. apply Hw. intros Hnil. apply Hlive. by rewrite Hnil.
    + intros Hlen. apply nil_length_inv in Hlen. apply Hlive. by rewrite Hlen.
  - intros Hlive. rewrite deliver_alarm, alarm_world. simpl.
    rewrite decide_False; [done|]. intros [Hlen _].
    by apply Hlive, nil_length_inv.
  - intros Hlive. unfold deliver, dispatch, exec; simpl.
    rewrite constructor_eq. simpl. destruct (truthy _); simpl; by apply Hw.
Qed.

(** X11.  In any execution, as long as somebody is connected an alarm is
    pending: the idle check cannot be lost while the session has
    observers. *)
Theorem alarm_is_pending_while_connected (evs : list (Z * Event))
    (broken : gset WebSocket) :
  webSockets (run evs (blank broken)) ≠ [] →
  is_Some (alarmAt (run evs (blank broken))).
Proof.
  assert (∀ w, watched w → watched (run evs w)) as Hrun.
  { induction evs as [|[t ev] evs IH]; intros w Hw; [done|].
    simpl. by apply IH, deliver_watched. }
  apply Hrun. by intros Hlive.
Qed.

Lemma deliver_resets_idle_clock (w : World) (t : Z) (ev : Event) :
  resets_idle_clock ev → lastActivity (deliver w (t, ev)) = t.
Proof.
  destruct ev as [request|ws message|ws code reason wasClean|ws| |];
    simpl; try done.
  - intros [Hws Hup]. unfold deliver, dispatch, exec; simpl.
    unfold mbind, M_bind. rewrite fetch_eq.
    rewrite decide_True by done.
    rewrite decide_False by (intros Hne; by apply Hne).
    simpl. unfold exec. by rewrite handleWebSocket_eq.
  - intros _. rewrite deliver_close. unfold exec. rewrite webSocketClose_eq.
    simpl. by case_decide.
  - intros _. unfold deliver, dispatch, exec; simpl. rewrite constructor_eq.
    simpl. by destruct (truthy _).
Qed.

(** X12.  Every accepted connection, client message, disconnect and
    construction of an instance restarts the idle clock: an alarm that
    fires within two hours of such an event keeps the session, whether
    or not anybody is connected. *)
Theorem activity_postpones_the_idle_end (w : World) (t t' : Z) (ev : Event) :
  resets_idle_clock ev →
  t' - t ≤ 2 * 60 * 60 * 1000 →
  let w1 := deliver w (t, ev) in
  storage (deliver w1 (t', AlarmFires)) = storage w1
  ∧ alarmAt (deliver w1 (t', AlarmFires)) = Some (t' + 30 * 60 * 1000).
Proof.
  intros Hev Hsoon w1.
  pose proof (deliver_resets_idle_clock w t ev Hev) as Hlast. fold w1 in Hlast.
  rewrite deliver_storage, deliver_alarm, alarm_world. simpl. rewrite Hlast.
  destruct (decide (length (webSockets w1) = 0%nat
                    ∧ t' - t > 2 * 60 * 60 * 1000)) as [[_ Hidle]|_]; [lia|done].
Qed.

Lemma fire_due_keeps_idle (t due : Z) (s : gmap string Z) (w : World) :
  idle_since t due s w →
  due - t ≤ 2 * 60 * 60 * 1000 →
  idle_since t (due + 30 * 60 * 1000) s (fire_due w).
Proof.
  intros (Hnone & Hlast & Hstore & Hdue) Hsoon. unfold fire_due, idle_since.
  rewrite Hdue, deliver_alarm, alarm_world. simpl.
  rewrite decide_False by (rewrite Hlast; lia).
  simpl. by split_and!.
Qed.

Lemma fire_due_ends_idle (t due : Z) (s : gmap string Z) (w : World) :
  idle_since t due s w →
  due - t > 2 * 60 * 60 * 1000 →
  storage (fire_due w) = ∅ ∧ alarmAt (fire_due w) = None.
Proof.
  intros (Hnone & Hlast & Hstore & Hdue) Hlate. unfold fire_due.
  rewrite Hdue, deliver_alarm, alarm_world. simpl.
  rewrite decide_True; [done|]. rewrite Hnone, Hlast. split; [done|lia].
Qed.

Lemma fire_due_iter_keeps_idle (n : nat) (t due : Z) (s : gmap string Z)
    (w : World) :
  idle_since t due s w →
  (0 < Z.of_nat n →
   due + (Z.of_nat n - 1) * (30 * 60 * 1000) - t ≤ 2 * 60 * 60 * 1000) →
  idle_since t (due + Z.of_nat n * (30 * 60 * 1000)) s (Nat.iter n fire_due w).
Proof.
  intros Hw. induction n as [|n IH]; intros Hsoon.
  - simpl. by rewrite Z.add_0_r.
  - simpl. replace (due + Z.of_nat (S n) * (30 * 60 * 1000))
      with (due + Z.of_nat n * (30 * 60 * 1000) + 30 * 60 * 1000) by lia.
    apply fire_due_keeps_idle; [apply IH|]; lia.
Qed.

(** X13.  The disconnect of the last observer, at [t], does not move
    the pending alarm: the handler still finds that connection listed.
    From then on, with every alarm firing when it is due and nothing
    else happening, each alarm due at most two hours after [t] keeps the
    session and sets the next one thirty minutes later, and the first
    alarm due more than two hours after [t] ends the session and sets no
    further alarm. *)
Theorem idle_session_ends_at_the_first_alarm_past_two_hours
    (w : World) (t due : Z) (n : nat)
    (ws : WebSocket) (code : Z) (reason : string) (wasClean : bool) :
  ws ∈ webSockets w →
  filter (λ x, x ≠ ws) (webSockets w) = [] →
  alarmAt w = Some due →
  let left := deliver w (t, SocketClose ws code reason wasClean) in
  let fired := due + Z.of_nat n * (30 * 60 * 1000) in
  alarmAt left = Some due
  ∧ (fired - t ≤ 2 * 60 * 60 * 1000 →
     storage (Nat.iter (S n) fire_due left) = storage w
     ∧ alarmAt (Nat.iter (S n) fire_due left) = Some (fired + 30 * 60 * 1000))
  ∧ (fired - t > 2 * 60 * 60 * 1000 →
     (0 < Z.of_nat n → fired - 30 * 60 * 1000 - t ≤ 2 * 60 * 60 * 1000) →
     storage (Nat.iter (S n) fire_due left) = ∅
     ∧ alarmAt (Nat.iter (S n) fire_due left) = None).
Proof.
  intros Hlisted Hlast Hdue left fired.
  assert (idle_since t due (storage w) left) as Hidle.
  { subst left. rewrite deliver_close. unfold exec, idle_since.
    rewrite webSocketClose_eq. simpl.
    rewrite decide_False.
    - by simpl.
    - intros Hlen. apply nil_length_inv in Hlen. rewrite Hlen in Hlisted.
      by apply elem_of_nil in Hlisted. }
  split_and!.
  - by destruct Hidle as (_ & _ & _ & ?).
  - intros Hsoon.
    destruct (fire_due_iter_keeps_idle (S n) t due (storage w) left Hidle)
      as (_ & _ & Hstore & Halarm); [subst fired; lia|].
    split; [done|]. rewrite Halarm. f_equal. subst fired. lia.
  - intros Hlate Hbefore.
    apply (fire_due_ends_idle t fired (storage w)); [|done].
    apply fire_due_iter_keeps_idle; [done|]. subst fired. lia.
Qed.

End More.


(** ** The Worker's handlers *)

Section WorkerFacts.
Context `{!Runtime} `{!Worker.Collaborators}.

Lemma fetch_notifyDO_request (event : string) (data : json) (w : World) :
  Broadcaster.fetch (notifyDO_request event data) w
  = (Ok (mkResponse (Some "OK") 200 None),
     exec (Broadcaster.broadcast event data) w).
Proof. rewrite fetch_eq. reflexivity. Qed.

Lemma notifyDO_eq (event : string) (data : json) (env : Worker.Env) :
  Worker.notifyDO event data env
  = (Worker.Done (),
     match Worker.objectFailure env with
     | Some message => Worker.log_error (Worker.NotifyError message) env
     | None =>
         Worker.set_object
           (exec (Broadcaster.broadcast event data) (Worker.object env)) env
     end).
Proof.
  unfold Worker.notifyDO, Worker.try_catch_message, Worker.stub_fetch,
    mbind, Worker.W_bind.
  destruct (Worker.objectFailure env); [done|].
  by rewrite fetch_notifyDO_request.
Qed.

(** X14.  [notifyDO] is best effort: it never throws and never touches
    the database.  When the object is reached, the object runs the
    broadcast; when [stub.fetch] throws, the error is logged and that is
    all. *)
Theorem notifyDO_is_best_effort (event : string) (data : json)
    (env : Worker.Env) :
  ∃ env',
    Worker.notifyDO event data env = (Worker.Done (), env')
    ∧ Worker.database env' = Worker.database env
    ∧ match Worker.objectFailure env with
      | Some message =>
          Worker.object env' = Worker.object env
          ∧ Worker.logged env' = Worker.logged env ++ [Worker.NotifyError message]
      | None =>
          Worker.object env'
          = exec (Broadcaster.broadcast event data) (Worker.object env)
          ∧ Worker.logged env' = Worker.logged env
      end.
Proof.
  eexists. split; [apply notifyDO_eq|].
  by destruct (Worker.objectFailure env).
Qed.

Ltac run_W :=
  unfold Worker.add_user, Worker.add_avatar, Worker.remove_user, Worker.users,
    Worker.try_catch_message, Worker.destructure, Worker.query, Worker.await,
    Worker.console_error, mbind, Worker.W_bind, mret, Worker.W_ret in *.

(** X15.  The four JSON handlers answer every request: whatever the
    body, the verifier, the database and the object do, the handler
    returns a reply, and its status is 200, 400 or 500. *)
Theorem json_handlers_always_reply (request : Worker.Incoming)
    (env : Worker.Env) :
  (∃ reply, (Worker.add_user request env).1 = Worker.Done reply
            ∧ Worker.reply_status reply ∈ [200; 400; 500])
  ∧ (∃ reply, (Worker.add_avatar request env).1 = Worker.Done reply
              ∧ Worker.reply_status reply ∈ [200; 400; 500])
  ∧ (∃ reply, (Worker.remove_user request env).1 = Worker.Done reply
              ∧ Worker.reply_status reply ∈ [200; 400; 500])
  ∧ (∃ reply, (Worker.users env).1 = Worker.Done reply
              ∧ Worker.reply_status reply ∈ [200; 400; 500]).
Proof.
  split_and!; run_W;
    repeat (simpl in *; rewrite ?notifyDO_eq in *; case_match; simplify_eq);
    simpl in *; rewrite ?notifyDO_eq in *; simplify_eq; simpl;
    eexists; (split; [reflexivity|]); simpl; rewrite !elem_of_cons; auto.
Qed.

Lemma js_get_not_nullish (field : string) (value found : json) :
  Worker.js_get field value = Some found → Worker.nullish (Some value) = false.
Proof. by destruct value. Qed.

(** X16.  Nothing is announced unless the request succeeds: when a
    handler answers anything but 200, the object has not been contacted,
    and when it answers 400 nothing at all has happened, neither a
    database call nor a log line. *)
Theorem nothing_is_announced_unless_the_request_succeeds
    (request : Worker.Incoming) (env : Worker.Env) :
  ∀ handler,
    handler ∈ [Worker.add_user request; Worker.add_avatar request;
               Worker.remove_user request; Worker.users] →
    ∀ reply,
      (handler env).1 = Worker.Done reply →
      (Worker.reply_status reply ≠ 200 →
       Worker.object (handler env).2 = Worker.object env)
      ∧ (Worker.reply_status reply = 400 → (handler env).2 = env).
Proof.
  intros handler Hin reply.
  rewrite !elem_of_cons, elem_of_nil in Hin.
  destruct Hin as [->|[->|[->|[->|[]]]]]; run_W;
    repeat (simpl in *; rewrite ?notifyDO_eq in *; case_match; simplify_eq);
    simpl in *; rewrite ?notifyDO_eq in *; simplify_eq; simpl;
    intros [= <-]; simpl;
    (split; intros Hstatus; first [done|discriminate Hstatus]).
Qed.

(** X17.  A token the verifier rejects is answered 500 with the
    verifier's message: the database is not called and the object is
    not contacted; the error is logged. *)
Theorem rejected_token_changes_nothing (request : Worker.Incoming)
    (env : Worker.Env) (body jwt : json) (message : string) :
  Worker.jsonBody request = inr body →
  Worker.js_truthy jwt = true →
  Worker.decodeAndVerifyJWT jwt = inl message →
  (Worker.js_get "profileJwt" body = Some jwt →
   Worker.add_user request env
   = (Worker.Done (Worker.failure "Failed to add user" message),
      Worker.log_error (Worker.AddUserError message) env))
  ∧ (Worker.js_get "avatarJwt" body = Some jwt →
     Worker.add_avatar request env
     = (Worker.Done (Worker.failure "Failed to add avatar" message),
        Worker.log_error (Worker.AddAvatarError message) env))
  ∧ (Worker.js_get "profileJwt" body = Some jwt →
     Worker.remove_user request env
     = (Worker.Done (Worker.failure "Failed to remove user" message),
        Worker.log_error (Worker.RemoveUserError message) env)).
Proof.
  intros Hbody Htruthy Hrejected.
  split_and!; intros Hjwt; run_W;
    rewrite Hbody, (js_get_not_nullish _ _ _ Hjwt); simpl;
    by rewrite Hjwt, Htruthy, Hrejected.
Qed.

(** X18.  [add-user] with a token that verifies: the user is written
    with the [did], [name] and [socials] of the token's data, an absent
    or null [socials] becoming the empty list; the reply is the stored
    user with status 200; and, the object being reachable, every
    observer whose handle is not stale receives [user-joined] with that
    user. *)
Theorem add_user_stores_and_announces (request : Worker.Incoming)
    (env : Worker.Env) (body jwt claims user : json)
    (payload : Worker.JWTPayload) (db' : Worker.DB) :
  Worker.jsonBody request = inr body →
  Worker.js_get "profileJwt" body = Some jwt →
  Worker.js_truthy jwt = true →
  Worker.decodeAndVerifyJWT jwt = inr payload →
  Worker.data payload = Some claims →
  claims ≠ JNull →
  Worker.addOrUpdateUser (Worker.database env)
    (Worker.js_get "did" claims) (Worker.js_get "name" claims)
    (Worker.nullish_or (Worker.js_get "socials" claims) (JArr []))
  = (inr user, db') →
  Worker.objectFailure env = None →
  let announced := exec (Broadcaster.broadcast "user-joined" user)
                        (Worker.object env) in
  Worker.add_user request env
  = (Worker.Done (Worker.ReplyJson user 200),
     Worker.set_object announced (Worker.set_database db' env))
  ∧ deliveries (effects_of (Broadcaster.broadcast "user-joined" user)
                           (Worker.object env))
    = (λ ws, (ws, JSON_stringify
                    (JObj [("type", JStr "user-joined"); ("data", user)])))
      <$> filter (λ ws, ws ∉ stale (Worker.object env))
                 (webSockets (Worker.object env)).
Proof.
  intros Hbody Hjwt Htruthy Hverified Hdata Hclaims Hstored Hreach announced.
  split.
  - run_W. rewrite Hbody, (js_get_not_nullish _ _ _ Hjwt). simpl.
    rewrite Hjwt, Htruthy, Hverified. simpl. rewrite Hdata.
    assert (Worker.nullish (Some claims) = false) as ->
      by (by destruct claims).
    simpl. rewrite Hstored. simpl. rewrite notifyDO_eq. simpl.
    by rewrite Hreach.
  - rewrite broadcast_effects. apply deliveries_send_effects.
Qed.

(** X19.  [remove-user] with a token that verifies deletes the user
    whose identifier is the token's issuer and answers
    [{success: true, did}]; the object being reachable, it runs a
    broadcast of [user-left] carrying that identifier.  When the object
    cannot be reached the reply and the database are the same, and the
    failure is only logged. *)
Theorem remove_user_deletes_the_issuer (request : Worker.Incoming)
    (env : Worker.Env) (body jwt : json) (payload : Worker.JWTPayload)
    (db' : Worker.DB) :
  Worker.jsonBody request = inr body →
  Worker.js_get "profileJwt" body = Some jwt →
  Worker.js_truthy jwt = true →
  Worker.decodeAndVerifyJWT jwt = inr payload →
  Worker.deleteUserByDID (Worker.database env) (Worker.iss payload)
  = (inr (), db') →
  let did := Worker.iss payload in
  let reply := Worker.ReplyJson
                 (JObj [("success", JBool true); ("did", JStr did)]) 200 in
  Worker.remove_user request env
  = (Worker.Done reply,
     match Worker.objectFailure env with
     | None =>
         Worker.set_object
           (exec (Broadcaster.broadcast "user-left" (JObj [("did", JStr did)]))
                 (Worker.object env))
           (Worker.set_database db' env)
     | Some message =>
         Worker.log_error (Worker.NotifyError message)
           (Worker.set_database db' env)
     end).
Proof.
  intros Hbody Hjwt Htruthy Hverified Hdeleted did reply.
  run_W. rewrite Hbody, (js_get_not_nullish _ _ _ Hjwt). simpl.
  rewrite Hjwt, Htruthy, Hverified. simpl. rewrite Hdeleted. simpl.
  rewrite notifyDO_eq. simpl. by destruct (Worker.objectFailure env).
Qed.

(** X20.  [add-avatar] takes the user's identifier from the token's
    issuer, not from its data.  A verified token whose data carries no
    avatar is answered 400 with nothing written; one that carries an
    avatar has it stored under the issuer and the stored user announced
    as [user-joined]. *)
Theorem add_avatar_stores_under_the_issuer (request : Worker.Incoming)
    (env : Worker.Env) (body jwt claims : json)
    (payload : Worker.JWTPayload) :
  Worker.jsonBody request = inr body →
  Worker.js_get "avatarJwt" body = Some jwt →
  Worker.js_truthy jwt = true →
  Worker.decodeAndVerifyJWT jwt = inr payload →
  Worker.data payload = Some claims →
  claims ≠ JNull →
  match Worker.js_get "avatar" claims with
  | Some picture =>
      if Worker.js_truthy picture then
        ∀ user db',
          Worker.addOrUpdateUserAvatar (Worker.database env)
            (Worker.iss payload) picture = (inr user, db') →
          Worker.objectFailure env = None →
          Worker.add_avatar request env
          = (Worker.Done (Worker.ReplyJson user 200),
             Worker.set_object
               (exec (Broadcaster.broadcast "user-joined" user)
                     (Worker.object env))
               (Worker.set_database db' env))
      else
        Worker.add_avatar request env
        = (Worker.Done
             (Worker.ReplyJson (JObj [("error", JStr "No avatar data in JWT")]) 400),
           env)
  | None =>
      Worker.add_avatar request env
      = (Worker.Done
           (Worker.ReplyJson (JObj [("error", JStr "No avatar data in JWT")]) 400),
         env)
  end.
Proof.
  intros Hbody Hjwt Htruthy Hverified Hdata Hclaims.
  assert (Worker.nullish (Some claims) = false) as Hnn by (by destruct claims).
  destruct (Worker.js_get "avatar" claims) as [picture|] eqn:Havatar;
    [destruct (Worker.js_truthy picture) eqn:Hpicture;
     [intros user db' Hstored Hreach|]|];
    run_W; rewrite Hbody, (js_get_not_nullish _ _ _ Hjwt); simpl;
    rewrite Hjwt, Htruthy, Hverified; simpl; rewrite Hdata, Hnn; simpl;
    rewrite Havatar; try done; rewrite Hpicture; try done.
  rewrite Hstored. simpl. rewrite notifyDO_eq. simpl. by rewrite Hreach.
Qed.

(** X21.  [GET /api/ws] without [Upgrade: websocket] is answered 426 and
    the object is not contacted.  With it, the handler hands through
    the object's 101 with the client end of a new pair, the server end
    having joined the live set.  This handler has no [try]: when the
    object cannot be reached, the error escapes it. *)
Theorem ws_route_forwards_upgrades (request : Worker.Incoming)
    (env : Worker.Env) :
  if decide (Worker.upgradeHeader request = Some "websocket") then
    match Worker.objectFailure env with
    | None =>
        (Worker.ws request env).1
        = Worker.Done
            (Worker.ReplyFrom
               (mkResponse None 101 (Some (nextSocket (Worker.object env)))))
        ∧ webSockets (Worker.object (Worker.ws request env).2)
          = webSockets (Worker.object env) ++ [S (nextSocket (Worker.object env))]
        ∧ Worker.database (Worker.ws request env).2 = Worker.database env
    | Some message => Worker.ws request env = (Worker.Raised message, env)
    end
  else
    Worker.ws request env
    = (Worker.Done (Worker.ReplyText "Expected WebSocket upgrade" 426), env).
Proof.
  unfold Worker.ws.
  destruct (decide (Worker.upgradeHeader request = Some "websocket"))
    as [Hup|Hup].
  - rewrite decide_False by (intros Hne; by apply Hne).
    unfold mbind, Worker.W_bind, Worker.stub_fetch.
    destruct (Worker.objectFailure env) as [message|]; [done|].
    rewrite Hup, fetch_eq. simpl. unfold exec. rewrite handleWebSocket_eq.
    done.
  - by rewrite decide_True.
Qed.

End WorkerFacts.

(** ** Concrete runs *)

#[local] Existing Instance Sample.runtime.
#[local] Existing Instance Sample.primitives.

(** C1 at an input: nobody connected, last activity at 1000, the alarm
    fires one millisecond past the two hours. *)
Lemma alarm_ends_idle_session_witness :
  let w := set_clock 7201001 Sample.started in
  storage (exec Broadcaster.alarm w) = ∅
  ∧ actions (effects_of Broadcaster.alarm w) = [StorageDeleteAll].
Proof.
  intros w.
  destruct (alarm_ends_idle_session_or_reschedules w) as [_ Hcase].
  rewrite decide_True in Hcase by (split; [reflexivity|vm_compute; reflexivity]).
  destruct Hcase as (_ & Hactions & _ & Hstorage & _). by split.
Defined.

(** C2 at an input: three observers, the second handle stale; the other
    two are served. *)
Lemma broadcast_with_one_stale_handle_witness :
  length (deliveries
            (effects_of (Broadcaster.broadcast "user-joined" JNull)
                        Sample.three_observers)) = 2%nat.
Proof.
  destruct (broadcast_is_partial_failure_tolerant
              "user-joined" JNull Sample.three_observers)
    as (_ & _ & _ & _ & Hcount).
  assert (webSockets Sample.three_observers = [1; 3; 5]%nat) as Hlive
    by (vm_compute; reflexivity).
  assert (stale Sample.three_observers = {[3%nat]}) as Hstale
    by reflexivity.
  rewrite Hlive, Hstale in Hcount.
  apply (Hcount 3%nat).
  - apply (bool_decide_unpack _). by vm_compute.
  - apply (bool_decide_unpack _). by vm_compute.
  - intros ws _. apply elem_of_singleton.
Defined.

(** C3, the claim at an input: a broadcast request at 5000 reaches a
    deployment whose last activity was at 1000, and the last activity is
    still 1000 afterwards. *)
Lemma broadcast_leaves_lastActivity_counterexample :
  ¬ (lastActivity
       (deliver Sample.started
                (5000, Fetch (notifyDO_request "user-joined" JNull)))
     = 5000).
Proof. vm_compute. discriminate. Qed.

(** C3 as amended, at an input. *)
Lemma lastActivity_follows_connection_events_witness :
  lastActivity (deliver Sample.started (5000, Fetch upgrade_request)) = 5000
  ∧ lastActivity
      (deliver Sample.started
               (5000, Fetch (notifyDO_request "user-joined" JNull)))
    = 1000.
Proof.
  destruct (lastActivity_follows_connection_events Sample.started 5000)
    as (Hconnect & _ & _ & Hbroadcast).
  split; [exact Hconnect|]. rewrite Hbroadcast. reflexivity.
Defined.

(** C4, the claim at an input: with observers on handles 1 and 3, the
    alarm stands at 1803000; handle 1 disconnects at 600000 and the alarm
    is not moved to thirty minutes after the disconnect. *)
Lemma disconnect_with_others_left_counterexample :
  ¬ (alarmAt (deliver Sample.two_observers
                      (600000, SocketClose 1 1000 "" true))
     = Some (600000 + 30 * 60 * 1000)).
Proof. vm_compute. discriminate. Qed.

(** C4 as amended, at the same input: the alarm is left where it was. *)
Lemma timer_after_disconnect_witness :
  alarmAt (deliver Sample.two_observers (600000, SocketClose 1 1000 "" true))
  = Some 1803000.
Proof.
  destruct (timer_is_set_by_connects_and_firings Sample.two_observers 600000)
    as (_ & Hclose & _).
  rewrite Hclose; [reflexivity|]. vm_compute. discriminate.
Defined.

(** C5, the claim at an input: the only observer, connected at 2000,
    disconnects at 602000, which leaves the live set empty.  The
    disconnect schedules nothing, so no check sooner than a period from
    the disconnect or sooner than the pending alarm. *)
Lemma emptying_disconnect_schedules_no_near_term_check_counterexample :
  let w := Sample.one_observer in
  let es := effects_of (dispatch (SocketClose 1 1000 "" true))
                       (set_clock 602000 w) in
  ¬ (∃ a, AlarmSet a ∈ es
          ∧ (a < 602000 + 30 * 60 * 1000
             ∨ ∃ standing, alarmAt w = Some standing ∧ a < standing)).
Proof.
  intros w es (a & Ha & _).
  assert (es = [Console (LogClosed 1000 1)]) as Hrun
    by (vm_compute; reflexivity).
  rewrite Hrun, !elem_of_cons, elem_of_nil in Ha. intuition discriminate.
Qed.

(** C5 as amended, at an input: a close reported at 5000 while no
    connection is listed sets the alarm a full period later. *)
Lemma disconnect_schedules_a_full_period_witness :
  AlarmSet (5000 + 30 * 60 * 1000)
  ∈ effects_of (dispatch (SocketClose 1 1000 "" true))
               (set_clock 5000 (run [(1000, Restarted)] (blank ∅))).
Proof.
  assert (in_order 0 [(1000, Restarted)]) as Hord by (simpl; lia).
  assert (clock (run [(1000, Restarted)] (blank ∅)) ≤ 5000) as Hlater
    by (vm_compute; discriminate).
  assert (webSockets (run [(1000, Restarted)] (blank ∅)) = []) as Hnone
    by reflexivity.
  exact (proj2 (disconnect_schedules_no_sooner_than_a_full_period
                  _ _ _ 1%nat 1000 "" true Hord Hlater) Hnone).
Defined.

(** C6 at an input: a first start at 1000 and restarts at 5000 and 9000;
    one write, of 1000, and the last instance has 1000. *)
Lemma start_time_is_written_once_witness :
  let w' := restarts [1000; 5000; 9000] (blank ∅) in
  storage w' = <["meetupStartTime" := 1000]> (storage (blank ∅))
  ∧ writes "meetupStartTime" (drop (length (trace (blank ∅))) (trace w')) = [1000]
  ∧ meetupStartTime w' = 1000.
Proof.
  assert (Forall (λ t, t ≠ 0) [1000; 5000; 9000]) as Hclock
    by (repeat constructor; discriminate).
  assert (storage (blank ∅) !! "meetupStartTime" ≠ Some 0) as Hstored
    by discriminate.
  exact (start_time_is_written_once [1000; 5000; 9000] (blank ∅)
           Hclock Hstored).
Defined.

(** The edge the hypotheses of C6 exclude: a stored [0] is falsy, so the
    constructor treats it as absent and stores the current time. *)
Lemma constructor_overwrites_a_stored_zero :
  storage (exec Broadcaster.constructor
             (set_clock 5000 (set_storage {["meetupStartTime" := 0]} (blank ∅))))
  !! "meetupStartTime" = Some 5000.
Proof. reflexivity. Qed.

(** C7 at an input: nobody connected, last activity at 1000, the alarm
    fires exactly two hours later. *)
Lemma alarm_before_idle_threshold_witness :
  let w := set_clock 7201000 Sample.started in
  storage (exec Broadcaster.alarm w) !! "meetupStartTime" = Some 1000
  ∧ actions (effects_of Broadcaster.alarm w) = [AlarmSet 9001000].
Proof.
  intros w.
  assert (webSockets w = []) as Hnone by reflexivity.
  assert (clock w - lastActivity w ≤ 2 * 60 * 60 * 1000) as Hrecent
    by (vm_compute; discriminate).
  destruct (alarm_before_idle_threshold_keeps_session w Hnone Hrecent)
    as (_ & Hkey & _ & _ & Hactions & _).
  split; [rewrite Hkey; reflexivity|exact Hactions].
Defined.

(** C8 at an input: a second observer arrives at 3000; the first one
    receives nothing. *)
Lemma connected_acknowledgment_witness :
  let es := effects_of (Broadcaster.handleWebSocket 3) (set_clock 3000 Sample.one_observer) in
  attempts es
  = [(3%nat, JSON_stringify
               (JObj [("type", JStr "connected");
                      ("timestamp", JStr (toISOString 3000));
                      ("connectionCount", JNum 2)]))]
  ∧ inbox 1 es = [].
Proof.
  intros es.
  destruct (connected_acknowledgment_is_private
              3 (set_clock 3000 Sample.one_observer))
    as (_ & Hattempts & _ & Hothers).
  split; [exact Hattempts|]. apply Hothers. discriminate.
Defined.


(** C10 at an input: claims that expire at 100, verified at 100. *)
Lemma verify_rejects_expired_witness :
  Verification.verify "h.p.s" (Verification.mkPolicy false "") 100
  = inl Verification.Expired.
Proof.
  assert (Verification.decode "h.p.s"
          = inr (Verification.mkDecoded
                   (Verification.mkPayload "p" JNull (Some 100) None)
                   "h.p" (String.list_byte_of_string "s"))) as Hdecoded
    by reflexivity.
  destruct (verify_rejects_expired_assertions
              "h.p.s" (Verification.mkPolicy false "") 100 _ Hdecoded)
    as [Hexpired _].
  apply (Hexpired 100); [reflexivity|]. simpl. lia.
Defined.

(** ** Concrete runs of the further properties *)

#[local] Existing Instance Sample.collaborators.

(** X1 at an input: an unknown path is answered 404 and leaves the world
    alone. *)
Lemma fetch_always_answers_witness :
  exec (Broadcaster.fetch (mkRequest "/nowhere" "GET" None None))
       Sample.one_observer
  = Sample.one_observer.
Proof.
  destruct (fetch_always_answers (mkRequest "/nowhere" "GET" None None)
              Sample.one_observer)
    as (response & Hresponse & _ & Huntouched & _).
  apply Huntouched. unfold result in Hresponse. rewrite fetch_eq in Hresponse.
  simpl in Hresponse. injection Hresponse as <-. right. reflexivity.
Defined.

(** X2 at an input: the first upgrade on a new deployment. *)
Lemma fetch_upgrade_witness :
  webSockets (exec (Broadcaster.fetch upgrade_request) Sample.started) = [1%nat].
Proof.
  destruct (fetch_upgrade_accepts_one_connection upgrade_request Sample.started
              eq_refl eq_refl) as (_ & Hlive & _).
  rewrite Hlive. reflexivity.
Defined.

(** X3 at an input: a broadcast request with three observers, one
    stale. *)
Lemma fetch_broadcast_witness :
  result (Broadcaster.fetch (notifyDO_request "user-left" JNull))
         Sample.three_observers
  = Ok (mkResponse (Some "OK") 200 None).
Proof.
  pose proof (fetch_broadcast_fans_out (notifyDO_request "user-left" JNull)
                "user-left" JNull Sample.three_observers eq_refl eq_refl)
    as Hcase.
  cbv zeta in Hcase. rewrite decide_True in Hcase by reflexivity.
  exact (proj1 Hcase).
Defined.

(** X6 at an input: one observer, the last activity more than a day
    ago. *)
Lemma alarm_never_ends_a_connected_session_witness :
  storage (exec Broadcaster.alarm (set_clock 99999999 Sample.one_observer))
  = storage (set_clock 99999999 Sample.one_observer).
Proof.
  refine (proj1 (alarm_never_ends_a_connected_session
                   (set_clock 99999999 Sample.one_observer) _)).
  vm_compute. discriminate.
Defined.

(** X7 at an input: three observers, the second handle stale. *)
Lemma closeAllConnections_witness :
  Closed 5 1000 "Meetup ended"
  ∈ effects_of Broadcaster.closeAllConnections Sample.three_observers.
Proof.
  destruct (closeAllConnections_closes_every_handle Sample.three_observers)
    as (_ & _ & _ & _ & Hclosed).
  apply Hclosed.
  - apply (bool_decide_unpack _). by vm_compute.
  - apply (bool_decide_unpack _). by vm_compute.
Defined.

(** X10 at an input: the session started at 1000 ends at 7201001 and a
    new one starts at 8000000. *)
Lemma fresh_session_after_idle_end_witness :
  storage (deliver (deliver Sample.started (7201001, AlarmFires))
                   (8000000, Restarted))
  = {["meetupStartTime" := 8000000]}.
Proof.
  assert (webSockets Sample.started = []) as Hnone by reflexivity.
  assert (7201001 - lastActivity Sample.started > 2 * 60 * 60 * 1000) as Hidle
    by (vm_compute; reflexivity).
  destruct (fresh_session_after_idle_end Sample.started 7201001 8000000
              Hnone Hidle) as (_ & _ & _ & Hstored & _).
  exact Hstored.
Defined.

(** X11 at an input: after one upgrade an alarm is pending. *)
Lemma alarm_is_pending_while_connected_witness :
  is_Some (alarmAt (run [(1000, Restarted); (2000, Fetch upgrade_request)]
                        (blank ∅))).
Proof.
  apply alarm_is_pending_while_connected. vm_compute. discriminate.
Defined.

(** X12 at an input: an instance constructed at 7000000 and an alarm two
    hours later. *)
Lemma activity_postpones_the_idle_end_witness :
  storage (deliver (deliver Sample.started (7000000, Restarted))
                   (14200000, AlarmFires))
  = storage (deliver Sample.started (7000000, Restarted)).
Proof.
  refine (proj1 (activity_postpones_the_idle_end
                   Sample.started 7000000 14200000 Restarted _ _)).
  - exact I.
  - vm_compute. discriminate.
Defined.

(** X13 at an input: the only observer, connected at 2000, leaves at
    600000; the alarm stays due at 1802000 and the fifth firing, at
    9002000, ends the session. *)
Lemma idle_session_ends_at_the_first_alarm_past_two_hours_witness :
  let left := deliver Sample.one_observer (600000, SocketClose 1 1000 "" true) in
  alarmAt left = Some 1802000
  ∧ storage (Nat.iter 5 fire_due left) = ∅.
Proof.
  intros left.
  assert (1%nat ∈ webSockets Sample.one_observer) as Hlisted
    by (apply (bool_decide_unpack _); by vm_compute).
  assert (filter (λ x, x ≠ 1%nat) (webSockets Sample.one_observer) = [])
    as Hlast by (vm_compute; reflexivity).
  assert (alarmAt Sample.one_observer = Some 1802000) as Hdue
    by (vm_compute; reflexivity).
  destruct (idle_session_ends_at_the_first_alarm_past_two_hours
              Sample.one_observer 600000 1802000 4 1%nat 1000 "" true
              Hlisted Hlast Hdue) as (Hkept & _ & Hends).
  split; [exact Hkept|]. apply Hends.
  - vm_compute. reflexivity.
  - intros _. vm_compute. discriminate.
Defined.

(** X16 at an input: a body whose [profileJwt] is null. *)
Lemma nothing_is_announced_witness :
  (Worker.add_user (Sample.posting JNull) (Sample.bindings None)).2
  = Sample.bindings None.
Proof.
  assert (Worker.add_user (Sample.posting JNull)
          ∈ [Worker.add_user (Sample.posting JNull);
             Worker.add_avatar (Sample.posting JNull);
             Worker.remove_user (Sample.posting JNull); Worker.users]) as Hin
    by (apply elem_of_cons; left; reflexivity).
  destruct (nothing_is_announced_unless_the_request_succeeds
              (Sample.posting JNull) (Sample.bindings None) _ Hin
              (Worker.ReplyJson (JObj [("error", JStr "Missing profileJwt")]) 400)
              eq_refl) as [_ Huntouched].
  apply Huntouched. reflexivity.
Defined.

(** X17 at an input: a token the verifier rejects. *)
Lemma rejected_token_witness :
  Worker.remove_user (Sample.posting (JStr "forged")) (Sample.bindings None)
  = (Worker.Done (Worker.failure "Failed to remove user" "Invalid signature"),
     Worker.log_error (Worker.RemoveUserError "Invalid signature")
                      (Sample.bindings None)).
Proof.
  destruct (rejected_token_changes_nothing
              (Sample.posting (JStr "forged")) (Sample.bindings None)
              _ (JStr "forged") "Invalid signature" eq_refl eq_refl eq_refl)
    as (_ & _ & Hremove).
  apply Hremove. reflexivity.
Defined.

(** X18 at an input: Alice checks in while three observers watch. *)
Lemma add_user_witness :
  (Worker.add_user (Sample.posting (JStr "good")) (Sample.bindings None)).1
  = Worker.Done
      (Worker.ReplyJson
         (JObj [("did", JStr "did:key:zAlice"); ("name", JStr "Alice");
                ("socials", JArr [])]) 200).
Proof.
  assert (JObj [("did", JStr "did:key:zAlice"); ("name", JStr "Alice");
                ("avatar", JStr "data:image/png;base64,AAAA")] ≠ JNull)
    as Hclaims by discriminate.
  destruct (add_user_stores_and_announces
              (Sample.posting (JStr "good")) (Sample.bindings None)
              _ (JStr "good") _ _ Sample.alice _
              eq_refl eq_refl eq_refl eq_refl eq_refl Hclaims eq_refl eq_refl)
    as [Hreply _].
  rewrite Hreply. reflexivity.
Defined.

(** X19 at an input: Alice leaves; the object cannot be reached. *)
Lemma remove_user_witness :
  Worker.remove_user (Sample.posting (JStr "good"))
                     (Sample.bindings (Some "unreachable"))
  = (Worker.Done
       (Worker.ReplyJson
          (JObj [("success", JBool true); ("did", JStr "did:key:zAlice")]) 200),
     Worker.log_error (Worker.NotifyError "unreachable")
       (Worker.set_database [] (Sample.bindings (Some "unreachable")))).
Proof.
  exact (remove_user_deletes_the_issuer
           (Sample.posting (JStr "good")) (Sample.bindings (Some "unreachable"))
           _ (JStr "good") Sample.alice []
           eq_refl eq_refl eq_refl eq_refl eq_refl).
Defined.

(** X20 at an input: Alice's avatar. *)
Lemma add_avatar_witness :
  (Worker.add_avatar (Sample.posting (JStr "good")) (Sample.bindings None)).1
  = Worker.Done
      (Worker.ReplyJson
         (JObj [("did", JStr "did:key:zAlice");
                ("avatar", JStr "data:image/png;base64,AAAA")]) 200).
Proof.
  assert (JObj [("did", JStr "did:key:zAlice"); ("name", JStr "Alice");
                ("avatar", JStr "data:image/png;base64,AAAA")] ≠ JNull)
    as Hclaims by discriminate.
  pose proof (add_avatar_stores_under_the_issuer
                (Sample.posting (JStr "good")) (Sample.bindings None)
                _ (JStr "good") _ Sample.alice
                eq_refl eq_refl eq_refl eq_refl eq_refl Hclaims) as Hcase.
  assert (Worker.js_get "avatar"
            (JObj [("did", JStr "did:key:zAlice"); ("name", JStr "Alice");
                   ("avatar", JStr "data:image/png;base64,AAAA")])
          = Some (JStr "data:image/png;base64,AAAA")) as Havatar
    by reflexivity.
  rewrite Havatar in Hcase.
  assert (Worker.js_truthy (JStr "data:image/png;base64,AAAA") = true)
    as Hpicture by reflexivity.
  rewrite Hpicture in Hcase.
  rewrite (Hcase _ _ eq_refl eq_refl). reflexivity.
Defined.
